(** * Deferred values, construct nodes and captured collections of the
      construct library

    A shallow embedding of the TypeScript sources

    - [StepScalingAction] (application auto scaling, step-scaling-action),
    - [Alarm] (cloudwatch, alarm),
    - [TopicBase] (aws-sns/lib/topic-base.ts),
    - [PublishToTopic] (aws-stepfunctions-tasks/lib/publish-to-topic.ts),

    together with the parts of the framework package [@aws-cdk/cdk], of
    [@aws-cdk/aws-iam] and of [@aws-cdk/aws-sqs] these classes are written
    against.  Of [Alarm] the annotation label is left out (it formats
    numbers), of [TopicBase] the methods [subscribeLambda] and
    [grantPublish] (they call into packages that are not among the
    sources).

    Methods mutate [this] and may throw.  A method is therefore a function
    from the state of the receiver to an outcome (the exception thrown or
    the value returned) and the state the receiver is left in: a mutation
    made before a [throw] stays visible, as in JavaScript. *)

From Stdlib Require Import String Ascii List Bool Arith ZArith DecimalString Lia.
Import ListNotations.
Local Open Scope string_scope.
Local Open Scope list_scope.

Set Implicit Arguments.
Set Warnings "-register-all".

(* ================================================================== *)
(** * Exceptions and the method monad *)

(** Modelled from the spec: the error kinds [DuplicateIdError],
    [ResolutionError] and [SynthesisError] of the framework package, next
    to [Error message], which is [throw new Error(message)] of the
    sources. *)
Inductive Exn : Type :=
| Error (message : string)
| DuplicateIdError (id : string)
| ResolutionError (cause : Exn) (provenance : list string)
| SynthesisError (cause : Exn) (path : list string).

Definition Outcome (A : Type) : Type := (Exn + A)%type.

(** A method of an object whose state has type [S], returning an [A]. *)
Definition M (S A : Type) : Type := S -> Outcome A * S.

Definition ret {S A : Type} (a : A) : M S A := fun s => (inr a, s).

Definition throw {S A : Type} (e : Exn) : M S A := fun s => (inl e, s).

Definition mbind {S A B : Type} (m : M S A) (k : A -> M S B) : M S B :=
  fun s =>
    match m s with
    | (inl e, s') => (inl e, s')
    | (inr a, s') => k a s'
    end.

Definition gets {S A : Type} (f : S -> A) : M S A := fun s => (inr (f s), s).

Definition modify {S : Type} (f : S -> S) : M S unit := fun s => (inr tt, f s).

Declare Scope method_scope.
Delimit Scope method_scope with method.
Notation "x <- m ;; k" := (mbind m (fun x => k))
  (at level 61, m at next level, right associativity) : method_scope.
Notation "m ;;; k" := (mbind m (fun _ => k))
  (at level 61, right associativity) : method_scope.
Local Open Scope method_scope.

(** The state the receiver is left in. *)
Definition exec {S A : Type} (m : M S A) (s : S) : S := snd (m s).

(** [try { m } catch (e) { }]: the caller swallows the exception; what [m]
    did to the receiver before throwing stays. *)
Definition attempt {S A : Type} (m : M S A) : M S unit :=
  fun s => (inr tt, snd (m s)).

(** The calls [f x1; f x2; ...] in program order, each one in a
    [try]/[catch]. *)
Fixpoint attemptEach {S A X : Type} (f : X -> M S A) (xs : list X) : M S unit :=
  match xs with
  | [] => ret tt
  | x :: xs' => attempt (f x) ;;; attemptEach f xs'
  end.

(** The calls [f x1; f x2; ...] in program order; the first exception ends
    the sequence. *)
Fixpoint forEach {S A X : Type} (f : X -> M S A) (xs : list X) : M S unit :=
  match xs with
  | [] => ret tt
  | x :: xs' => f x ;;; forEach f xs'
  end.

(** JavaScript's [a || b] on an optional string: [undefined] and the empty
    string are falsy. *)
Definition orElse (a : option string) (b : string) : string :=
  match a with
  | None => b
  | Some EmptyString => b
  | Some s => s
  end.

(** JavaScript objects as the sources build them: keys in insertion order.
    [setKey] is the assignment [o[key] = value]; [getKey] reads [o[key]]. *)
Fixpoint setKey {A : Type} (key : string) (value : A) (o : list (string * A))
  : list (string * A) :=
  match o with
  | [] => [(key, value)]
  | (k, v) :: o' =>
      if String.eqb k key then (k, value) :: o' else (k, v) :: setKey key value o'
  end.

Fixpoint getKey {A : Type} (key : string) (o : list (string * A)) : option A :=
  match o with
  | [] => None
  | (k, v) :: o' => if String.eqb k key then Some v else getKey key o'
  end.

Definition keys {A : Type} (o : list (string * A)) : list string := map fst o.

(** The object literal [{ ...base, ...extra }]: the entries of [extra] are
    assigned onto [base] in order. *)
Definition spread {A : Type} (base extra : list (string * A)) : list (string * A) :=
  fold_left (fun o kv => setKey (fst kv) (snd kv) o) extra base.

(* ================================================================== *)
(** * The framework package *)

(** What the sources use of [@aws-cdk/cdk] without defining it: JavaScript
    numbers (only ever stored and passed on by the classes below), the
    unique identifier computed from a node's path, and the attribute
    references ([Fn::GetAtt]) of a generated resource. *)
Class Cdk : Type := {
  number : Type;
  makeUniqueId : list string -> string;
  attribute : list string -> string -> string
}.

(** ** Token *)

Section Token.
Variables S V : Type.

(** Modelled from the spec: the class [Token] of [@aws-cdk/cdk], which is
    not among the sources.  A Token wraps a constant or a zero-argument
    producer; the producer is a closure over the object that created it,
    here a method on that object's state.  [provenance] is the path of
    the construct that created the Token. *)
Inductive Token : Type :=
| makeConstant (value : V)
| makeLazy (provenance : list string) (producer : M S V).

(** Modelled from the spec: [resolve()] returns the constant, or invokes
    the producer and returns its result; an error raised by the producer
    is propagated as a [ResolutionError] with its cause and the Token's
    provenance. *)
Definition resolve (t : Token) : M S V :=
  match t with
  | makeConstant v => ret v
  | makeLazy provenance producer =>
      fun s =>
        match producer s with
        | (inl cause, s') => (inl (ResolutionError cause provenance), s')
        | (inr v, s') => (inr v, s')
        end
  end.

(** Modelled from the spec: [new Token(f).toList()] is the same deferred
    value, typed as a list. *)
Definition toList (t : Token) : Token := t.

(** A producer [() => this.field]: it reads the captured collection and
    touches nothing. *)
Definition reads {C : Type} (collection : S -> C) (view : C -> V) : M S V :=
  gets (fun this => view (collection this)).

(** A Token that leaves the state of the object it closes over alone. *)
Definition readOnly (t : Token) : Prop := forall s : S, exec (resolve t) s = s.
End Token.

Arguments makeConstant {S V} value.
Arguments makeLazy {S V} provenance producer.

(** ** Construct nodes *)

(** What a parent records about a child: the objects of the classes below
    live in their own records, the parent keeps the child's id and, for the
    children the properties below talk about, what the child is. *)
Section ConstructNode.
Variable C : Type.

(** Modelled from the spec: the node of a construct, with its id, its
    root-to-node path and its children in insertion order. *)
Record ConstructNode : Type := mkNode {
  id : string;
  path : list string;
  children : list (string * C)
}.

Fixpoint lookupChild (name : string) (cs : list (string * C)) : option C :=
  match cs with
  | [] => None
  | (k, c) :: cs' => if String.eqb k name then Some c else lookupChild name cs'
  end.

Definition tryFindChild (n : ConstructNode) (name : string) : option C :=
  lookupChild name (children n).

(** Modelled from the spec: [createChild(parent, id)] fails with
    [DuplicateIdError] if [id] already exists among the parent's
    children; otherwise the child is appended. *)
Definition addChild (name : string) (c : C) : M ConstructNode unit :=
  fun n =>
    match tryFindChild n name with
    | Some _ => (inl (DuplicateIdError name), n)
    | None => (inr tt, mkNode (id n) (path n) (children n ++ [(name, c)]))
    end.

(** The node of a construct just created under [scope] with id [name]. *)
Definition childNode (scope : ConstructNode) (name : string) : ConstructNode :=
  mkNode name (path scope ++ [name]) [].
End ConstructNode.

Arguments mkNode {C} id path children.

(** Modelled from the spec: [uniqueId] is derived by hashing the full path
    of the node. *)
Definition uniqueId `{Cdk} {C : Type} (n : ConstructNode C) : string :=
  makeUniqueId (path n).

(* ================================================================== *)
(** * Policy statements ([@aws-cdk/aws-iam]) *)

Module iam.

Inductive PolicyStatementEffect : Type := Allow | Deny.

(** A condition block: operator, then key/value pairs. *)
Definition Condition : Type := list (string * list (string * string)).

(** Modelled from the spec: the policy statement of [@aws-cdk/aws-iam],
    which is not among the sources; a plain structured value with an
    effect, an action set, principals, a resource list and a condition,
    built with the chained calls the sources use. *)
Record PolicyStatement : Type := mkStatement {
  effect : PolicyStatementEffect;
  actions : list string;
  principals : list string;
  resources : list string;
  condition : Condition
}.

(** [new iam.PolicyStatement()] *)
Definition newPolicyStatement : PolicyStatement :=
  mkStatement Allow [] [] [] [].

Definition addAction (a : string) (st : PolicyStatement) : PolicyStatement :=
  mkStatement (effect st) (actions st ++ [a]) (principals st) (resources st)
              (condition st).

Definition addResource (arn : string) (st : PolicyStatement) : PolicyStatement :=
  mkStatement (effect st) (actions st) (principals st) (resources st ++ [arn])
              (condition st).

Definition addServicePrincipal (service : string) (st : PolicyStatement)
  : PolicyStatement :=
  mkStatement (effect st) (actions st) (principals st ++ [service])
              (resources st) (condition st).

Definition setCondition (key : string) (value : list (string * string))
           (st : PolicyStatement) : PolicyStatement :=
  mkStatement (effect st) (actions st) (principals st) (resources st)
              (setKey key value (condition st)).

(** ** Merging permission statements *)

Definition effect_eqb (a b : PolicyStatementEffect) : bool :=
  match a, b with
  | Allow, Allow | Deny, Deny => true
  | _, _ => false
  end.

Definition member (x : string) (l : list string) : bool :=
  existsb (String.eqb x) l.

(** The same action set: each action of one is an action of the other. *)
Definition sameActions (a b : list string) : bool :=
  forallb (fun x => member x b) a && forallb (fun x => member x a) b.

Definition condition_eq_dec (a b : Condition) : {a = b} + {a <> b}.
Proof.
  refine (list_eq_dec _ a b).
  intros [k1 v1] [k2 v2].
  destruct (string_dec k1 k2) as [->|]; [|right; congruence].
  refine (match list_eq_dec _ v1 v2 with
          | left e => left _
          | right n => right _
          end); [|congruence|congruence].
  intros [p1 q1] [p2 q2].
  destruct (string_dec p1 p2) as [->|]; [|right; congruence].
  destruct (string_dec q1 q2) as [->|]; [left; reflexivity|right; congruence].
Defined.

(** Identical [{effect, action-set, condition}]. *)
Definition sameKey (a b : PolicyStatement) : bool :=
  effect_eqb (effect a) (effect b)
  && sameActions (actions a) (actions b)
  && (if condition_eq_dec (condition a) (condition b) then true else false).

(** The union of two resource lists: the first list, then the resources
    of the second it does not hold yet. *)
Definition unionResources (l1 l2 : list string) : list string :=
  fold_left (fun acc r => if member r acc then acc else acc ++ [r]) l2 l1.

Definition mergeResources (into st : PolicyStatement) : PolicyStatement :=
  mkStatement (effect into) (actions into) (principals into)
              (unionResources (resources into) (resources st))
              (condition into).

(** Modelled from the spec: the merge step of the policy-attachment path
    (the pipeline actions that attach the statements are not among the
    sources, only their test is).  A statement with the key of one
    already attached is merged into it by resource-list union; any other
    statement is appended. *)
Fixpoint attachStatement (st : PolicyStatement) (attached : list PolicyStatement)
  : list PolicyStatement :=
  match attached with
  | [] => [st]
  | d :: rest =>
      if sameKey d st then mergeResources d st :: rest
      else d :: attachStatement st rest
  end.

(** Attaching a sequence of statements to a role that has none. *)
Definition attachAll (sts : list PolicyStatement) : list PolicyStatement :=
  fold_left (fun attached st => attachStatement st attached) sts [].

(** No two statements with the same key. *)
Fixpoint distinctKeys (l : list PolicyStatement) : bool :=
  match l with
  | [] => true
  | d :: rest => forallb (fun e => negb (sameKey d e)) rest && distinctKeys rest
  end.

End iam.

(* ================================================================== *)
(** * Subscriptions and the children of a construct *)

(** The members of [SubscriptionProtocol] the sources name. *)
Inductive SubscriptionProtocol : Type :=
| Http | Https | Email | EmailJson | Sqs | Lambda.

(** The properties a [Subscription] is created with; [topic] is the
    subscribed topic, identified by its ARN. *)
Record SubscriptionProps : Type := mkSubscriptionProps {
  topic : string;
  endpoint : string;
  protocol : SubscriptionProtocol;
  rawMessageDelivery : option bool
}.

Record Subscription : Type := mkSubscription {
  subscriptionName : string;
  subscriptionProps : SubscriptionProps
}.

(** What a node records of each child.  A policy construct is also held in
    the [policy] field of its owner and mutated through it: the object
    lives in that field and the child entry only refers to it. *)
Inductive Child : Type :=
| ConstructChild
| ResourceChild (cfnType : string)
| SubscriptionChild (s : Subscription)
| PolicyChild.

Definition Construct : Type := ConstructNode Child.

(** Modelled from the spec: [new Subscription(scope, name, props)]; the
    class is not among the sources, and like every construct it registers
    itself under [scope] with [createChild]. *)
Definition newSubscription (name : string) (props : SubscriptionProps)
  : M Construct Subscription :=
  let sub := mkSubscription name props in
  addChild name (SubscriptionChild sub) ;;; ret sub.

(* ================================================================== *)
(** * StepScalingAction *)

Module StepScalingAction.
Section WithCdk.
Context `{Cdk}.

Inductive AdjustmentType : Type :=
| ChangeInCapacity | PercentChangeInCapacity | ExactCapacity.

Inductive MetricAggregationType : Type := Average | Minimum | Maximum.

Record IScalableTarget : Type := { scalableTargetId : string }.

Record StepScalingActionProps : Type := {
  scalingTarget : IScalableTarget;
  policyName : option string;
  adjustmentType : option AdjustmentType;
  cooldownSec : option number;
  minAdjustmentMagnitude : option number;
  metricAggregationType : option MetricAggregationType
}.

Record AdjustmentTier : Type := {
  adjustment : number;
  lowerBound : option number;
  upperBound : option number
}.

Record StepAdjustmentProperty : Type := {
  metricIntervalLowerBound : option number;
  metricIntervalUpperBound : option number;
  scalingAdjustment : number
}.

(** The state of a [StepScalingAction]: [this]. *)
Record StepScalingAction : Type := mkAction {
  node : Construct;
  scalingPolicyArn : string;
  adjustments : list StepAdjustmentProperty
}.

Record StepScalingPolicyConfigurationProperty : Type := {
  cfgAdjustmentType : option AdjustmentType;
  cooldown : option number;
  cfgMinAdjustmentMagnitude : option number;
  cfgMetricAggregationType : option MetricAggregationType;
  stepAdjustments : Token StepScalingAction (list StepAdjustmentProperty)
}.

(** The properties of the [CfnScalingPolicy] child ['Resource']. *)
Record CfnScalingPolicy : Type := {
  cfnPolicyName : string;
  policyType : string;
  scalingTargetId : string;
  stepScalingPolicyConfiguration : StepScalingPolicyConfigurationProperty
}.

(** The body of the constructor, after [super(scope, id)]: the new object
    and its resource. *)
Definition construct (scope : Construct) (id : string) (props : StepScalingActionProps)
  : StepScalingAction * CfnScalingPolicy :=
  let thisNode := childNode scope id in
  let thisPath := path thisNode in
  let resourcePath := thisPath ++ ["Resource"] in
  let resource := {|
    cfnPolicyName := orElse (policyName props) (uniqueId thisNode);
    policyType := "StepScaling";
    scalingTargetId := scalableTargetId (scalingTarget props);
    stepScalingPolicyConfiguration := {|
      cfgAdjustmentType := adjustmentType props;
      cooldown := cooldownSec props;
      cfgMinAdjustmentMagnitude := minAdjustmentMagnitude props;
      cfgMetricAggregationType := metricAggregationType props;
      stepAdjustments := makeLazy thisPath (reads adjustments (fun a => a))
    |}
  |} in
  let this := {|
    node := mkNode id thisPath
              [("Resource", ResourceChild "AWS::ApplicationAutoScaling::ScalingPolicy")];
    scalingPolicyArn := attribute resourcePath "scalingPolicyArn";
    adjustments := []
  |} in
  (this, resource).

(** [new StepScalingAction(scope, id, props)]; [scope] gets the child
    [id]. *)
Definition new (id : string) (props : StepScalingActionProps)
  : M Construct (StepScalingAction * CfnScalingPolicy) :=
  fun scope => (addChild id ConstructChild ;;; ret (construct scope id props)) scope.

Definition hasBound (tier : AdjustmentTier) : bool :=
  match lowerBound tier, upperBound tier with
  | None, None => false
  | _, _ => true
  end.

Definition stepOf (tier : AdjustmentTier) : StepAdjustmentProperty := {|
  metricIntervalLowerBound := lowerBound tier;
  metricIntervalUpperBound := upperBound tier;
  scalingAdjustment := adjustment tier
|}.

(** The error [addAdjustment] throws; the spec calls it
    [InvalidTierError]. *)
Definition InvalidTierError : Exn :=
  Error "At least one of lowerBound or upperBound is required".

Definition addAdjustment (tier : AdjustmentTier) : M StepScalingAction unit :=
  fun this =>
    match lowerBound tier, upperBound tier with
    | None, None => throw InvalidTierError this
    | _, _ =>
        modify (fun this =>
                  mkAction (node this) (scalingPolicyArn this)
                           (adjustments this ++ [stepOf tier])) this
    end.

(** The step adjustments as the resource's Token resolves them. *)
Definition resolvedStepAdjustments (resource : CfnScalingPolicy)
  : M StepScalingAction (list StepAdjustmentProperty) :=
  resolve (stepAdjustments (stepScalingPolicyConfiguration resource)).

End WithCdk.
End StepScalingAction.

(* ================================================================== *)
(** * Alarm *)

(** What [Alarm] uses of the metric classes without defining it. *)
Class MetricApi `{Cdk} : Type := {
  Dimension : Type;
  Unit : Type;
  Statistic : Type;
  (** the [stat.type] tag of [parseStatistic]: ['simple'] with a statistic,
      or ['percentile'] with a number *)
  parseStatistic : string -> Statistic + number;
  numberToString : number -> string
}.

Module Alarm.
Section WithCdk.
Context `{MetricApi}.

Inductive ComparisonOperator : Type :=
| GreaterThanOrEqualToThreshold
| GreaterThanThreshold
| LessThanThreshold
| LessThanOrEqualToThreshold.

Inductive TreatMissingData : Type :=
| Breaching | NotBreaching | Ignore | Missing.

(** The fields of a [Metric] the alarm reads. *)
Record Metric : Type := {
  dimensionsAsList : list Dimension;
  namespace : string;
  metricName : string;
  periodSec : number;
  statistic : string;
  unit_ : option Unit
}.

Record AlarmProps : Type := {
  metric : Metric;
  propsAlarmName : option string;
  alarmDescription : option string;
  comparisonOperator : option ComparisonOperator;
  threshold : number;
  evaluationPeriods : number;
  evaluateLowSampleCountPercentile : option string;
  treatMissingData : option TreatMissingData;
  actionsEnabled : option bool;
  datapointsToAlarm : option number
}.

Record AlarmMetricJson : Type := {
  jsonDimensions : option (list Dimension);
  jsonNamespace : string;
  jsonMetricName : string;
  jsonPeriod : number;
  jsonStatistic : option Statistic;
  jsonExtendedStatistic : option string;
  jsonUnit : option Unit
}.

Definition metricJson (m : Metric) : AlarmMetricJson :=
  let stat := parseStatistic (statistic m) in
  let dims := dimensionsAsList m in
  {| jsonDimensions := match dims with [] => None | _ => Some dims end;
     jsonNamespace := namespace m;
     jsonMetricName := metricName m;
     jsonPeriod := periodSec m;
     jsonStatistic := match stat with inl s => Some s | inr _ => None end;
     jsonExtendedStatistic :=
       match stat with inl _ => None | inr p => Some ("p" ++ numberToString p)%string end;
     jsonUnit := unit_ m |}.

(** The state of an [Alarm]: [this].  The three action lists are declared
    without an initialiser. *)
Record Alarm : Type := mkAlarm {
  node : Construct;
  alarmArn : string;
  alarmName : string;
  alarmMetric : Metric;
  alarmActionArns : option (list string);
  insufficientDataActionArns : option (list string);
  okActionArns : option (list string)
}.

(** The interface [IAlarm]: what an action sees of the alarm. *)
Record IAlarm : Type := { iAlarmArn : string; iAlarmName : string }.

Definition asIAlarm (this : Alarm) : IAlarm :=
  {| iAlarmArn := alarmArn this; iAlarmName := alarmName this |}.

Record AlarmActionConfig : Type := { alarmActionArn : string }.

(** Modelled from the spec: the interface [IAlarmAction], which is not
    among the sources; an action exposes [bind(scope, alarm)], which
    returns the ARN to register. *)
Record IAlarmAction : Type := {
  bind : Construct -> IAlarm -> AlarmActionConfig
}.

(** The properties of the [CfnAlarm] child ['Resource']. *)
Record CfnAlarm : Type := {
  cfnAlarmDescription : option string;
  cfnAlarmName : option string;
  cfnComparisonOperator : ComparisonOperator;
  cfnThreshold : number;
  cfnDatapointsToAlarm : option number;
  cfnEvaluateLowSampleCountPercentile : option string;
  cfnEvaluationPeriods : number;
  cfnTreatMissingData : option TreatMissingData;
  cfnActionsEnabled : option bool;
  alarmActions : Token Alarm (option (list string));
  insufficientDataActions : Token Alarm (option (list string));
  okActions : Token Alarm (option (list string));
  cfnMetric : AlarmMetricJson
}.

(** The body of the constructor, after [super(scope, id)]: the new object
    and its resource. *)
Definition construct (scope : Construct) (id : string) (props : AlarmProps)
  : Alarm * CfnAlarm :=
  let thisNode := childNode scope id in
  let thisPath := path thisNode in
  let resourcePath := thisPath ++ ["Resource"] in
  let operator :=
    match comparisonOperator props with
    | Some op => op
    | None => GreaterThanOrEqualToThreshold
    end in
  let alarm := {|
    cfnAlarmDescription := alarmDescription props;
    cfnAlarmName := propsAlarmName props;
    cfnComparisonOperator := operator;
    cfnThreshold := threshold props;
    cfnDatapointsToAlarm := datapointsToAlarm props;
    cfnEvaluateLowSampleCountPercentile := evaluateLowSampleCountPercentile props;
    cfnEvaluationPeriods := evaluationPeriods props;
    cfnTreatMissingData := treatMissingData props;
    cfnActionsEnabled := actionsEnabled props;
    alarmActions :=
      toList (makeLazy thisPath (reads alarmActionArns (fun a => a)));
    insufficientDataActions :=
      toList (makeLazy thisPath (reads insufficientDataActionArns (fun a => a)));
    okActions :=
      toList (makeLazy thisPath (reads okActionArns (fun a => a)));
    cfnMetric := metricJson (metric props)
  |} in
  let this := {|
    node := mkNode id thisPath [("Resource", ResourceChild "AWS::CloudWatch::Alarm")];
    alarmArn := attribute resourcePath "alarmArn";
    alarmName := attribute resourcePath "alarmName";
    alarmMetric := metric props;
    alarmActionArns := None;
    insufficientDataActionArns := None;
    okActionArns := None
  |} in
  (this, alarm).

(** [new Alarm(scope, id, props)]; [scope] gets the child [id]. *)
Definition new (id : string) (props : AlarmProps) : M Construct (Alarm * CfnAlarm) :=
  fun scope => (addChild id ConstructChild ;;; ret (construct scope id props)) scope.

(** [actions.map(a => a.bind(this, this).alarmActionArn)] *)
Definition boundArns (this : Alarm) (actions : list IAlarmAction) : list string :=
  map (fun a => alarmActionArn (bind a (node this) (asIAlarm this))) actions.

(** The list after [if (l === undefined) { l = []; }]. *)
Definition initialised (l : option (list string)) : list string :=
  match l with
  | None => []
  | Some arns => arns
  end.

Definition addAlarmAction (actions : list IAlarmAction) : M Alarm unit :=
  modify (fun this =>
    mkAlarm (node this) (alarmArn this) (alarmName this) (alarmMetric this)
            (Some (initialised (alarmActionArns this) ++ boundArns this actions))
            (insufficientDataActionArns this)
            (okActionArns this)).

Definition addInsufficientDataAction (actions : list IAlarmAction) : M Alarm unit :=
  modify (fun this =>
    mkAlarm (node this) (alarmArn this) (alarmName this) (alarmMetric this)
            (alarmActionArns this)
            (Some (initialised (insufficientDataActionArns this) ++ boundArns this actions))
            (okActionArns this)).

Definition addOkAction (actions : list IAlarmAction) : M Alarm unit :=
  modify (fun this =>
    mkAlarm (node this) (alarmArn this) (alarmName this) (alarmMetric this)
            (alarmActionArns this)
            (insufficientDataActionArns this)
            (Some (initialised (okActionArns this) ++ boundArns this actions))).

(** The three action lists of the resource as its Tokens resolve them;
    [None] is a field left out of the output. *)
Record ResolvedActions : Type := {
  resolvedAlarmActions : option (list string);
  resolvedInsufficientDataActions : option (list string);
  resolvedOkActions : option (list string)
}.

(** All three fields left out. *)
Definition noActions : ResolvedActions :=
  {| resolvedAlarmActions := None;
     resolvedInsufficientDataActions := None;
     resolvedOkActions := None |}.

Definition resolveActions (resource : CfnAlarm) : M Alarm ResolvedActions :=
  a <- resolve (alarmActions resource) ;;
  i <- resolve (insufficientDataActions resource) ;;
  o <- resolve (okActions resource) ;;
  ret {| resolvedAlarmActions := a;
         resolvedInsufficientDataActions := i;
         resolvedOkActions := o |}.

End WithCdk.
End Alarm.

(* ================================================================== *)
(** * Queues ([@aws-cdk/aws-sqs]) *)

Module sqs.

(** Modelled from the spec: the queue a topic subscribes, a resource
    reference of [@aws-cdk/aws-sqs], which is not among the sources.
    [isConstruct] is the answer of [cdk.Construct.isConstruct(queue)]. *)
Record IQueue : Type := mkQueue {
  isConstruct : bool;
  node : Construct;
  queueArn : string;
  autoCreatePolicy : bool;
  policy : option (list iam.PolicyStatement)
}.

Definition onNode {A : Type} (m : M Construct A) : M IQueue A :=
  fun queue =>
    let (outcome, n) := m (node queue) in
    (outcome, mkQueue (isConstruct queue) n (queueArn queue)
                      (autoCreatePolicy queue) (policy queue)).

Definition setPolicy (p : option (list iam.PolicyStatement)) : M IQueue unit :=
  modify (fun queue =>
    mkQueue (isConstruct queue) (node queue) (queueArn queue)
            (autoCreatePolicy queue) p).

(** Modelled from the spec: attaching a policy statement to a resource
    reference creates or reuses the policy resource of a live reference
    and is a no-op on an imported one. *)
Definition addToResourcePolicy (statement : iam.PolicyStatement) : M IQueue unit :=
  fun queue =>
    ((match policy queue, autoCreatePolicy queue with
      | None, true => onNode (addChild "Policy" PolicyChild) ;;; setPolicy (Some [])
      | _, _ => ret tt
      end) ;;;
     (fun queue =>
        match policy queue with
        | Some document => setPolicy (Some (document ++ [statement])) queue
        | None => ret tt queue
        end)) queue.

End sqs.

(* ================================================================== *)
(** * TopicBase *)

Module TopicBase.

(** Modelled from the spec: the [TopicPolicy] construct, which is not among
    the sources: the topics it applies to and its policy document, an
    ordered sequence of statements. *)
Record TopicPolicy : Type := mkPolicy {
  topics : list string;
  document : list iam.PolicyStatement
}.

(** [PolicyDocument.addStatement] *)
Definition addStatement (statement : iam.PolicyStatement) (p : TopicPolicy)
  : TopicPolicy :=
  mkPolicy (topics p) (document p ++ [statement]).

(** The state of a topic: [this].  [topicArn], [topicName] and
    [autoCreatePolicy] are set by the subclass. *)
Record TopicBase : Type := mkTopic {
  node : Construct;
  topicArn : string;
  topicName : string;
  autoCreatePolicy : bool;
  policy : option TopicPolicy
}.

Definition onNode {A : Type} (m : M Construct A) : M TopicBase A :=
  fun this =>
    let (outcome, n) := m (node this) in
    (outcome, mkTopic n (topicArn this) (topicName this)
                      (autoCreatePolicy this) (policy this)).

Definition setPolicy (p : option TopicPolicy) : M TopicBase unit :=
  modify (fun this =>
    mkTopic (node this) (topicArn this) (topicName this)
            (autoCreatePolicy this) p).

(** The topic with [p] as its policy, and the topic's node with the
    policy child. *)
Definition withPolicy (p : TopicPolicy) (this : TopicBase) : TopicBase :=
  mkTopic (node this) (topicArn this) (topicName this) (autoCreatePolicy this) (Some p).

Definition withPolicyChild (this : TopicBase) : Construct :=
  mkNode (id (node this)) (path (node this))
         (children (node this) ++ [("Policy", PolicyChild)]).

(** [new TopicPolicy(this, 'Policy', { topics: [ this ] })], assigned to
    [this.policy]. *)
Definition newTopicPolicy : M TopicBase unit :=
  fun this =>
    (onNode (addChild "Policy" PolicyChild) ;;;
     setPolicy (Some (mkPolicy [topicArn this] []))) this.

Definition subscribe (name endpoint : string) (protocol : SubscriptionProtocol)
           (rawMessageDelivery : option bool) : M TopicBase Subscription :=
  fun this =>
    onNode (newSubscription name
              (mkSubscriptionProps (topicArn this) endpoint protocol
                                   rawMessageDelivery)) this.

(** The statement [subscribeQueue] adds to the queue's resource policy. *)
Definition sendMessageStatement (this : TopicBase) (queue : sqs.IQueue)
  : iam.PolicyStatement :=
  iam.setCondition "ArnEquals" [("aws:SourceArn", topicArn this)]
    (iam.addServicePrincipal "sns.amazonaws.com"
       (iam.addAction "sqs:SendMessage"
          (iam.addResource (sqs.queueArn queue) iam.newPolicyStatement))).

Definition alreadySubscribed (this : TopicBase) (queue : sqs.IQueue) : Exn :=
  Error ("A subscription between the topic " ++ id (node this)
         ++ " and the queue " ++ id (sqs.node queue) ++ " already exists")%string.

(** [this.subscribeQueue(queue, rawMessageDelivery)]: the topic is only
    read, the queue gets the subscription and the statement. *)
Definition subscribeQueue (this : TopicBase) (rawMessageDelivery : option bool)
  : M sqs.IQueue Subscription :=
  fun queue =>
    if negb (sqs.isConstruct queue) then
      throw (Error "The supplied Queue object must be an instance of Construct") queue
    else
      let subscriptionName := (id (node this) ++ "Subscription")%string in
      match tryFindChild (sqs.node queue) subscriptionName with
      | Some _ => throw (alreadySubscribed this queue) queue
      | None =>
          (sub <- sqs.onNode
                    (newSubscription subscriptionName
                       (mkSubscriptionProps (topicArn this) (sqs.queueArn queue)
                                            Sqs rawMessageDelivery)) ;;
           sqs.addToResourcePolicy (sendMessageStatement this queue) ;;;
           ret sub) queue
      end.

Record EmailSubscriptionOptions : Type := { json : option bool }.

Definition subscribeEmail (name emailAddress : string)
           (options : option EmailSubscriptionOptions) : M TopicBase Subscription :=
  fun this =>
    let protocol :=
      match options with
      | Some {| json := Some true |} => EmailJson
      | _ => Email
      end in
    onNode (newSubscription name
              (mkSubscriptionProps (topicArn this) emailAddress protocol None)) this.

Definition invalidUrl : Exn :=
  Error "URL must start with either http:// or https://".

Definition subscribeUrl (name url : string) (rawMessageDelivery : option bool)
  : M TopicBase Subscription :=
  fun this =>
    if negb (prefix "http://" url) && negb (prefix "https://" url) then
      throw invalidUrl this
    else
      let protocol := if prefix "https:" url then Https else Http in
      onNode (newSubscription name
                (mkSubscriptionProps (topicArn this) url protocol
                                     rawMessageDelivery)) this.

Definition addToResourcePolicy (statement : iam.PolicyStatement) : M TopicBase unit :=
  fun this =>
    ((match policy this, autoCreatePolicy this with
      | None, true => newTopicPolicy
      | _, _ => ret tt
      end) ;;;
     (fun this =>
        match policy this with
        | Some p => setPolicy (Some (addStatement statement p)) this
        | None => ret tt this
        end)) this.

End TopicBase.

(* ================================================================== *)
(** * PublishToTopic *)

(** The values of a task's parameter object. *)
Inductive JsValue (any : Type) : Type :=
| JsUndefined
| JsString (s : string)
| JsOther (v : any).

Arguments JsUndefined {any}.
Arguments JsString {any} s.
Arguments JsOther {any} v.

(** What [PublishToTopic] uses of [@aws-cdk/aws-stepfunctions] without
    defining it: the values a task input may carry and
    [FieldUtils.renderObject]. *)
Class FieldUtils : Type := {
  any : Type;
  renderObject : list (string * JsValue any) -> list (string * JsValue any)
}.

Module PublishToTopic.
Section WithFieldUtils.
Context `{FieldUtils}.

Record TaskInput : Type := { value : JsValue any }.

Record PublishToTopicProps : Type := {
  message : TaskInput;
  messagePerSubscriptionType : option bool;
  subject : option string
}.

Record PublishToTopic : Type := {
  topic : TopicBase.TopicBase;
  props : PublishToTopicProps
}.

Record StepFunctionsTaskConfig : Type := {
  resourceArn : string;
  policyStatements : list iam.PolicyStatement;
  parameters : list (string * JsValue any)
}.

Definition optionalString (s : option string) : JsValue any :=
  match s with
  | Some s => JsString s
  | None => JsUndefined
  end.

(** The object handed to [renderObject]. *)
Definition fields (this : PublishToTopic) : list (string * JsValue any) :=
  [ ("Message", value (message (props this)));
    ("MessageStructure",
      match messagePerSubscriptionType (props this) with
      | Some true => JsString "json"
      | _ => JsUndefined
      end);
    ("Subject", optionalString (subject (props this))) ].

Definition bind (this : PublishToTopic) : StepFunctionsTaskConfig := {|
  resourceArn := "arn:aws:states:::sns:publish";
  policyStatements :=
    [ iam.addResource (TopicBase.topicArn (topic this))
        (iam.addAction "sns:Publish" iam.newPolicyStatement) ];
  parameters :=
    spread [("TopicArn", JsString (TopicBase.topicArn (topic this)))]
           (renderObject (fields this))
|}.

End WithFieldUtils.
End PublishToTopic.

(* ================================================================== *)
(** * Synthesizer *)

Module Synthesizer.
Section WithStore.
Context `{Cdk}.

(** [S] is the state of the objects the Tokens of the tree close over,
    [V] the type of resolved property mappings. *)
Variables S V : Type.

Record Resource : Type := {
  cfnType : string;
  properties : Token S V
}.

(** Modelled from the spec: a construct tree as the synthesizer sees it: a
    node has an id, declares a resource or not, and has children in
    insertion order. *)
Inductive Node : Type :=
| mkTree (id : string) (resource : option Resource) (children : list Node).

Record ResourceDescription : Type := {
  typeName : string;
  resolvedProperties : V
}.

(** Resource identifier to resource description, in emission order. *)
Definition StructuredDocument : Type := list (string * ResourceDescription).

(** A resolution failure becomes a [SynthesisError] with its cause and
    the path of the failing node. *)
Definition synthesizeResource (path : list string) (r : Resource)
  : M S StructuredDocument :=
  fun s =>
    match resolve (properties r) s with
    | (inl cause, s') => (inl (SynthesisError cause path), s')
    | (inr v, s') =>
        (inr [(makeUniqueId path,
               {| typeName := cfnType r; resolvedProperties := v |})], s')
    end.

(** Modelled from the spec: one depth-first traversal, children visited
    in insertion order and before the resource of their parent. *)
Fixpoint synthesizeNode (scope : list string) (n : Node) : M S StructuredDocument :=
  match n with
  | mkTree id resource children =>
      let path := scope ++ [id] in
      below <- (fix visit (cs : list Node) : M S StructuredDocument :=
                  match cs with
                  | [] => ret []
                  | c :: cs' =>
                      d <- synthesizeNode path c ;;
                      ds <- visit cs' ;;
                      ret (d ++ ds)
                  end) children ;;
      own <- match resource with
             | None => ret []
             | Some r => synthesizeResource path r
             end ;;
      ret (below ++ own)
  end.

Definition synthesize (root : Node) : M S StructuredDocument :=
  synthesizeNode [] root.

(** Every Token of the tree. *)
Fixpoint tokens (n : Node) : list (Token S V) :=
  match n with
  | mkTree _ resource children =>
      match resource with
      | None => []
      | Some r => [properties r]
      end
      ++ (fix all (cs : list Node) : list (Token S V) :=
            match cs with
            | [] => []
            | c :: cs' => tokens c ++ all cs'
            end) children
  end.

(** The types of the resources a document describes. *)
Definition typeNames (d : StructuredDocument) : list string :=
  map (fun entry => typeName (snd entry)) d.

End WithStore.

Arguments mkTree {S V} id resource children.

End Synthesizer.

(** ** The trees of the constructs above *)

Module Trees.
Section WithCdk.
Context `{Cdk}.

Import Synthesizer.

(** *** A step scaling action and its resource *)

Record ScalingPolicyProperties : Type := {
  outPolicyName : string;
  outPolicyType : string;
  outScalingTargetId : string;
  outAdjustmentType : option StepScalingAction.AdjustmentType;
  outCooldown : option number;
  outMinAdjustmentMagnitude : option number;
  outMetricAggregationType : option StepScalingAction.MetricAggregationType;
  outStepAdjustments : list StepScalingAction.StepAdjustmentProperty
}.

Definition scalingPolicyProperties (resource : StepScalingAction.CfnScalingPolicy)
  : M StepScalingAction.StepScalingAction ScalingPolicyProperties :=
  let cfg := StepScalingAction.stepScalingPolicyConfiguration resource in
  steps <- resolve (StepScalingAction.stepAdjustments cfg) ;;
  ret {| outPolicyName := StepScalingAction.cfnPolicyName resource;
         outPolicyType := StepScalingAction.policyType resource;
         outScalingTargetId := StepScalingAction.scalingTargetId resource;
         outAdjustmentType := StepScalingAction.cfgAdjustmentType cfg;
         outCooldown := StepScalingAction.cooldown cfg;
         outMinAdjustmentMagnitude := StepScalingAction.cfgMinAdjustmentMagnitude cfg;
         outMetricAggregationType := StepScalingAction.cfgMetricAggregationType cfg;
         outStepAdjustments := steps |}.

(** Modelled from the spec: the construct and, below it, its resource,
    whose properties are read at synthesis. *)
Definition actionTree (this : StepScalingAction.StepScalingAction)
           (resource : StepScalingAction.CfnScalingPolicy)
  : Node StepScalingAction.StepScalingAction ScalingPolicyProperties :=
  mkTree (id (StepScalingAction.node this)) None
    [ mkTree "Resource"
        (Some {| cfnType := "AWS::ApplicationAutoScaling::ScalingPolicy";
                 properties :=
                   makeLazy (path (StepScalingAction.node this))
                            (scalingPolicyProperties resource) |})
        [] ].

(** *** A topic and its children *)

Inductive TopicOutput : Type :=
| SubscriptionProperties (props : SubscriptionProps)
| TopicPolicyProperties (topics : list string) (document : list iam.PolicyStatement)
| GeneratedProperties.

Definition policyProperties : M TopicBase.TopicBase TopicOutput :=
  fun this =>
    match TopicBase.policy this with
    | Some p =>
        ret (TopicPolicyProperties (TopicBase.topics p) (TopicBase.document p)) this
    | None => throw (Error "the topic has no policy") this
    end.

(** Modelled from the spec: a subscription and a policy are constructs
    with their resource below them; the policy's properties are read from
    the topic at synthesis. *)
Definition childTree (owner : list string) (entry : string * Child)
  : Node TopicBase.TopicBase TopicOutput :=
  let (name, child) := entry in
  match child with
  | ConstructChild => mkTree name None []
  | ResourceChild ty =>
      mkTree name (Some {| cfnType := ty;
                           properties := makeConstant GeneratedProperties |}) []
  | SubscriptionChild s =>
      mkTree name None
        [ mkTree "Resource"
            (Some {| cfnType := "AWS::SNS::Subscription";
                     properties :=
                       makeConstant (SubscriptionProperties (subscriptionProps s)) |})
            [] ]
  | PolicyChild =>
      mkTree name None
        [ mkTree "Resource"
            (Some {| cfnType := "AWS::SNS::TopicPolicy";
                     properties := makeLazy (owner ++ [name]) policyProperties |})
            [] ]
  end.

Definition topicTree (this : TopicBase.TopicBase)
  : Node TopicBase.TopicBase TopicOutput :=
  mkTree (id (TopicBase.node this)) None
         (map (childTree (path (TopicBase.node this)))
              (children (TopicBase.node this))).

End WithCdk.
End Trees.

(* ================================================================== *)
(** * Concrete instances used in the examples *)

(** Integers for numbers, the path joined for the unique id. *)
Definition exampleCdk : Cdk := {|
  number := Z;
  makeUniqueId := String.concat EmptyString;
  attribute := fun path name => String.concat "." (path ++ [name])
|}.

Definition exampleStack : Construct := mkNode "Stack" ["Stack"] [].

Module Examples.

(** *** Step scaling: the scenario of the spec, a tier with only
    [upperBound = 10], a tier with no bound at all, a tier with only
    [lowerBound = 10] *)

Definition upTo10 : @StepScalingAction.AdjustmentTier exampleCdk :=
  @StepScalingAction.Build_AdjustmentTier exampleCdk (-1)%Z None (Some 10%Z).

Definition from10 : @StepScalingAction.AdjustmentTier exampleCdk :=
  @StepScalingAction.Build_AdjustmentTier exampleCdk 1%Z (Some 10%Z) None.

Definition unbounded : @StepScalingAction.AdjustmentTier exampleCdk :=
  @StepScalingAction.Build_AdjustmentTier exampleCdk 5%Z None None.

Definition scalingProps : @StepScalingAction.StepScalingActionProps exampleCdk :=
  @StepScalingAction.Build_StepScalingActionProps exampleCdk
    (StepScalingAction.Build_IScalableTarget "target") None None None None None.

Definition scaling : @StepScalingAction.StepScalingAction exampleCdk :=
  fst (StepScalingAction.construct exampleStack "Scaling" scalingProps).

Definition scalingResource : @StepScalingAction.CfnScalingPolicy exampleCdk :=
  snd (StepScalingAction.construct exampleStack "Scaling" scalingProps).

Definition stackWithScaling : Construct :=
  mkNode "Stack" ["Stack"] [("Scaling", ConstructChild)].

(** *** Alarms: alarm [A] with threshold 5, actions [X] and [Y] *)

Definition exampleMetricApi : @MetricApi exampleCdk :=
  @Build_MetricApi exampleCdk (string * string)%type string string
                   (fun s => inl s)
                   (fun n : Z => NilZero.string_of_int (Z.to_int n)).

Definition queueDepth : @Alarm.Metric exampleCdk exampleMetricApi :=
  @Alarm.Build_Metric exampleCdk exampleMetricApi
    [] "AWS/SQS" "ApproximateNumberOfMessagesVisible" 300%Z "Maximum" None.

Definition alarmProps : @Alarm.AlarmProps exampleCdk exampleMetricApi :=
  @Alarm.Build_AlarmProps exampleCdk exampleMetricApi
    queueDepth None None None 5%Z 1%Z None None None None.

Definition alarmA : @Alarm.Alarm exampleCdk exampleMetricApi :=
  fst (Alarm.construct exampleStack "A" alarmProps).

Definition alarmAResource : @Alarm.CfnAlarm exampleCdk exampleMetricApi :=
  snd (Alarm.construct exampleStack "A" alarmProps).

Definition stackWithA : Construct := mkNode "Stack" ["Stack"] [("A", ConstructChild)].

Definition actionX : Alarm.IAlarmAction :=
  Alarm.Build_IAlarmAction
    (fun _ _ => Alarm.Build_AlarmActionConfig "arn:aws:sns:us-east-1:123456789012:X").

Definition actionY : Alarm.IAlarmAction :=
  Alarm.Build_IAlarmAction
    (fun _ _ => Alarm.Build_AlarmActionConfig "arn:aws:sns:us-east-1:123456789012:Y").

(** *** Topics and queues *)

Definition liveTopic : TopicBase.TopicBase :=
  TopicBase.mkTopic
    (mkNode "Topic" ["Stack"; "Topic"] [("Resource", ResourceChild "AWS::SNS::Topic")])
    "arn:aws:sns:us-east-1:123456789012:live" "live" true None.

Definition importedTopic : TopicBase.TopicBase :=
  TopicBase.mkTopic (mkNode "Imported" ["Stack"; "Imported"] [])
                    "arn:aws:sns:us-east-1:123456789012:imported" "imported" false None.

Definition allowPublish : iam.PolicyStatement :=
  iam.addResource "*" (iam.addAction "sns:Publish" iam.newPolicyStatement).

Definition allowSubscribe : iam.PolicyStatement :=
  iam.addResource "*" (iam.addAction "sns:Subscribe" iam.newPolicyStatement).

Definition liveQueue : sqs.IQueue :=
  sqs.mkQueue true
    (mkNode "Queue" ["Stack"; "Queue"] [("Resource", ResourceChild "AWS::SQS::Queue")])
    "arn:aws:sqs:us-east-1:123456789012:queue" true None.

(** *** The pipeline test: two actions with the same ChangeSet name *)

Definition passRole (role : string) : iam.PolicyStatement :=
  iam.addResource role (iam.addAction "iam:PassRole" iam.newPolicyStatement).

Definition changeSetStatement (stack : string) : iam.PolicyStatement :=
  iam.setCondition "StringEqualsIfExists"
    [("cloudformation:ChangeSetName", "MyChangeSet")]
    (iam.addResource stack
       (iam.addAction "cloudformation:DescribeStacks"
          (iam.addAction "cloudformation:DescribeChangeSet"
             (iam.addAction "cloudformation:DeleteChangeSet"
                (iam.addAction "cloudformation:CreateChangeSet"
                   iam.newPolicyStatement))))).

Definition roleA : string := "PipelineTestStageActionARole9283FBE3.Arn".
Definition roleB : string := "PipelineTestStageActionBRoleCABC8FA5.Arn".
Definition stackA : string := "arn:aws:cloudformation:region:account:stack/StackA/*".
Definition stackB : string := "arn:aws:cloudformation:region:account:stack/StackB/*".

(** *** A task publishing to the live topic *)

Definition isDefined {any : Type} (entry : string * JsValue any) : bool :=
  match snd entry with
  | JsUndefined => false
  | _ => true
  end.

(** An implementation of [renderObject] that drops the undefined fields and
    keeps the others. *)
Definition exampleFieldUtils : FieldUtils :=
  @Build_FieldUtils Z (filter (@isDefined Z)).

Definition publishTask (perType : option bool)
  : @PublishToTopic.PublishToTopic exampleFieldUtils :=
  @PublishToTopic.Build_PublishToTopic exampleFieldUtils liveTopic
    (@PublishToTopic.Build_PublishToTopicProps exampleFieldUtils
       (@PublishToTopic.Build_TaskInput exampleFieldUtils (JsString "hello"))
       perType None).

End Examples.

(* ================================================================== *)
(** * Sequences of calls *)

(** The longest prefix of [xs] whose elements satisfy [p]. *)
Fixpoint takeWhile {X : Type} (p : X -> bool) (xs : list X) : list X :=
  match xs with
  | [] => []
  | x :: xs' => if p x then x :: takeWhile p xs' else []
  end.

(** ** Calls on an alarm *)

Module AlarmCalls.
Section WithCdk.
Context `{MetricApi}.
Import Alarm.

(** A call of one of the three add methods. *)
Inductive AlarmCall : Type :=
| AddAlarmAction (actions : list IAlarmAction)
| AddInsufficientDataAction (actions : list IAlarmAction)
| AddOkAction (actions : list IAlarmAction).

Definition call (c : AlarmCall) : M Alarm unit :=
  match c with
  | AddAlarmAction actions => addAlarmAction actions
  | AddInsufficientDataAction actions => addInsufficientDataAction actions
  | AddOkAction actions => addOkAction actions
  end.

(** The arguments of the calls of each method, in call order. *)
Definition alarmCalls (cs : list AlarmCall) : list (list IAlarmAction) :=
  flat_map (fun c => match c with AddAlarmAction a => [a] | _ => [] end) cs.

Definition insufficientDataCalls (cs : list AlarmCall) : list (list IAlarmAction) :=
  flat_map (fun c => match c with AddInsufficientDataAction a => [a] | _ => [] end) cs.

Definition okCalls (cs : list AlarmCall) : list (list IAlarmAction) :=
  flat_map (fun c => match c with AddOkAction a => [a] | _ => [] end) cs.

(** A list that was [before], after the calls [calls] of its method. *)
Definition grown (this : Alarm) (before : option (list string))
           (calls : list (list IAlarmAction)) : option (list string) :=
  match calls with
  | [] => before
  | _ :: _ => Some (initialised before ++ flat_map (boundArns this) calls)
  end.

End WithCdk.
End AlarmCalls.

(** ** Calls on a topic *)

Module TopicCalls.
Import TopicBase.

(** A call of one of the methods of [TopicBase] that act on the topic. *)
Inductive TopicCall : Type :=
| Subscribe (name endpoint : string) (protocol : SubscriptionProtocol)
            (rawMessageDelivery : option bool)
| SubscribeEmail (name emailAddress : string) (options : option EmailSubscriptionOptions)
| SubscribeUrl (name url : string) (rawMessageDelivery : option bool)
| AddToResourcePolicy (statement : iam.PolicyStatement).

Definition call (c : TopicCall) : M TopicBase unit :=
  match c with
  | Subscribe name endpoint protocol raw => subscribe name endpoint protocol raw ;;; ret tt
  | SubscribeEmail name emailAddress options =>
      subscribeEmail name emailAddress options ;;; ret tt
  | SubscribeUrl name url raw => subscribeUrl name url raw ;;; ret tt
  | AddToResourcePolicy statement => addToResourcePolicy statement
  end.

(** The statements of the [addToResourcePolicy] calls, in call order. *)
Definition statementsOf (cs : list TopicCall) : list iam.PolicyStatement :=
  flat_map (fun c => match c with AddToResourcePolicy st => [st] | _ => [] end) cs.

Definition isPolicyChild (entry : string * Child) : bool :=
  match snd entry with
  | PolicyChild => true
  | _ => false
  end.

(** A child entry that is a subscription to the topic with ARN [arn],
    registered under its own name. *)
Definition isSubscriptionTo (arn : string) (entry : string * Child) : Prop :=
  exists props : SubscriptionProps,
    snd entry = SubscriptionChild (mkSubscription (fst entry) props)
    /\ topic props = arn.

(** What one call can do to a topic. *)
Inductive Step (this : TopicBase) : TopicBase -> Prop :=
| step_nothing : Step this this
| step_subscription (name : string) (props : SubscriptionProps) :
    tryFindChild (node this) name = None ->
    topic props = topicArn this ->
    Step this
         (mkTopic
            (mkNode (id (node this)) (path (node this))
                    (children (node this)
                     ++ [(name, SubscriptionChild (mkSubscription name props))]))
            (topicArn this) (topicName this) (autoCreatePolicy this) (policy this))
| step_policy (statement : iam.PolicyStatement) :
    autoCreatePolicy this = true ->
    policy this = None ->
    tryFindChild (node this) "Policy" = None ->
    Step this
         (mkTopic (withPolicyChild this) (topicArn this) (topicName this)
                  (autoCreatePolicy this)
                  (Some (mkPolicy [topicArn this] [statement])))
| step_statement (statement : iam.PolicyStatement) (p : TopicPolicy) :
    policy this = Some p ->
    Step this (withPolicy (addStatement statement p) this).

(** The policy field and the child ['Policy'] in step: the topic has a
    policy exactly when its child ['Policy'] is the policy construct. *)
Definition inStep (this : TopicBase) : Prop :=
  match policy this with
  | Some _ => tryFindChild (node this) "Policy" = Some PolicyChild
  | None => tryFindChild (node this) "Policy" <> Some PolicyChild
  end.

End TopicCalls.

(* ================================================================== *)
(** * The annotation of an alarm *)

(** What the annotation label uses of JavaScript numbers: literals, [===],
    [<], [*] and [/]. *)
Class NumberOps `{Cdk} : Type := {
  numberOfZ : Z -> number;
  numEqb : number -> number -> bool;
  numLtb : number -> number -> bool;
  numMul : number -> number -> number;
  numDiv : number -> number -> number
}.

Module AlarmAnnotation.
Section WithNumbers.
Context {cdk : Cdk} {api : @MetricApi cdk} {ops : @NumberOps cdk}.
Import Alarm.

(** The table [OPERATOR_SYMBOLS], as written. *)
Definition OPERATOR_SYMBOLS (op : ComparisonOperator) : string :=
  match op with
  | GreaterThanOrEqualToThreshold => ">="
  | GreaterThanThreshold => ">"
  | LessThanThreshold => "<"
  | LessThanOrEqualToThreshold => ">="
  end.

Definition describePeriod (seconds : number) : string :=
  if numEqb seconds (numberOfZ 60) then "1 minute"
  else if numEqb seconds (numberOfZ 1) then "1 second"
  else if numLtb (numberOfZ 60) seconds
       then (numberToString (numDiv seconds (numberOfZ 60)) ++ " minutes")%string
       else (numberToString seconds ++ " seconds")%string.

(** The fields of a [HorizontalAnnotation] the alarm sets. *)
Record HorizontalAnnotation : Type := {
  label : string;
  value : number
}.

(** [this.annotation] as the constructor computes it; [metricLabel] is
    [props.metric.label], which the record [Metric] does not carry. *)
Definition annotation (metricLabel : option string) (props : AlarmProps)
  : HorizontalAnnotation :=
  let comparisonOperator :=
    match comparisonOperator props with
    | Some op => op
    | None => GreaterThanOrEqualToThreshold
    end in
  {| label :=
       (orElse metricLabel (metricName (metric props))
        ++ " " ++ OPERATOR_SYMBOLS comparisonOperator
        ++ " " ++ numberToString (threshold props)
        ++ " for " ++ numberToString (evaluationPeriods props)
        ++ " datapoints within "
        ++ describePeriod (numMul (evaluationPeriods props)
                                  (periodSec (metric props))))%string;
     value := threshold props |}.

(** [props] with another comparison operator. *)
Definition withOperator (op : option ComparisonOperator) (props : AlarmProps)
  : AlarmProps :=
  {| metric := metric props;
     propsAlarmName := propsAlarmName props;
     alarmDescription := alarmDescription props;
     comparisonOperator := op;
     threshold := threshold props;
     evaluationPeriods := evaluationPeriods props;
     evaluateLowSampleCountPercentile := evaluateLowSampleCountPercentile props;
     treatMissingData := treatMissingData props;
     actionsEnabled := actionsEnabled props;
     datapointsToAlarm := datapointsToAlarm props |}.

End WithNumbers.
End AlarmAnnotation.

(* ================================================================== *)
(** * The helpers of the pipeline-actions test *)

Module PipelineTest.

(** What the helpers use without defining it: the values they compare,
    [resolve] (through a new stack), lodash's [isEqual], [Array.isArray],
    iteration over a value, truthiness, property access and
    [Object.keys]. *)
Class TestValues : Type := {
  Value : Type;
  resolve : Value -> Value;
  isEqual : Value -> Value -> bool;
  isArray : Value -> bool;
  elements : Value -> list Value;
  truthy : Value -> bool;
  property : Value -> string -> Value;
  objectKeys : Value -> list string
}.

Section WithValues.
Context `{TestValues}.

Record PolicyStatementJson : Type := {
  Effect : iam.PolicyStatementEffect;
  Action : Value;
  Resource : Value;
  Condition : Value
}.

Definition _isOrContains (entity value : Value) : bool :=
  let resolvedValue := resolve value in
  let resolvedEntity := resolve entity in
  if isEqual resolvedEntity resolvedValue then true
  else if negb (isArray resolvedEntity) then false
  else existsb (fun tested => isEqual tested resolvedValue) (elements entity).

Definition isAllow (s : PolicyStatementJson) : bool :=
  match Effect s with
  | iam.Allow => true
  | iam.Deny => false
  end.

(** The loop of [_grantsPermission] over the statements that allow. *)
Fixpoint grantsAmong (allowing : list PolicyStatementJson) (action resource : Value)
         (conditions : option Value) : bool :=
  match allowing with
  | [] => false
  | statement :: rest =>
      if negb (_isOrContains (Action statement) action)
      then grantsAmong rest action resource conditions
      else if negb (_isOrContains (Resource statement) resource)
      then grantsAmong rest action resource conditions
      else if match conditions with
              | Some c => truthy c && negb (_isOrContains (Condition statement) c)
              | None => false
              end
      then grantsAmong rest action resource conditions
      else true
  end.

Definition _grantsPermission (statements : list PolicyStatementJson)
           (action resource : Value) (conditions : option Value) : bool :=
  grantsAmong (filter isAllow statements) action resource conditions.

(** The fields of a pipeline action the helper reads. *)
Record Action_ : Type := {
  owner : string;
  provider : string;
  category : string;
  configuration : option Value
}.

(** How a loop body ends: it falls through to the next iteration
    ([continue] included), or the function returns. *)
Inductive Completion : Type :=
| Normal
| Returned (result : bool).

(** The inner loop of [_hasAction] over [Object.keys(configuration)]: both
    branches of its [if] go on with the next key. *)
Fixpoint compareKeys (actual expected : Value) (ks : list string) : Completion :=
  match ks with
  | [] => Normal
  | key :: ks' =>
      if negb (isEqual (resolve (property actual key)) (resolve (property expected key)))
      then compareKeys actual expected ks'
      else compareKeys actual expected ks'
  end.

Fixpoint _hasAction (actions : list Action_) (owner_ provider_ category_ : string)
         (configuration_ : option Value) : bool :=
  match actions with
  | [] => false
  | action :: rest =>
      if negb (String.eqb (owner action) owner_)
      then _hasAction rest owner_ provider_ category_ configuration_
      else if negb (String.eqb (provider action) provider_)
      then _hasAction rest owner_ provider_ category_ configuration_
      else if negb (String.eqb (category action) category_)
      then _hasAction rest owner_ provider_ category_ configuration_
      else
        match configuration_, configuration action with
        | Some _, None => _hasAction rest owner_ provider_ category_ configuration_
        | Some expected, Some actual =>
            match compareKeys actual expected (objectKeys expected) with
            | Normal => true
            | Returned result => result
            end
        | None, _ => true
        end
  end.

(** An action with the given owner, provider and category, and with a
    configuration if one is expected. *)
Definition matches (owner_ provider_ category_ : string) (expectsConfiguration : bool)
           (action : Action_) : bool :=
  String.eqb (owner action) owner_
  && String.eqb (provider action) provider_
  && String.eqb (category action) category_
  && (negb expectsConfiguration
      || match configuration action with Some _ => true | None => false end).

End WithValues.
End PipelineTest.

(* ================================================================== *)
(** * More concrete instances *)

Module MoreExamples.
Import Examples.

(** Integer arithmetic for the number operations. *)
Definition exampleNumberOps : @NumberOps exampleCdk :=
  @Build_NumberOps exampleCdk (fun z : Z => z) Z.eqb Z.ltb Z.mul Z.div.

Definition jsonMail : TopicBase.EmailSubscriptionOptions :=
  TopicBase.Build_EmailSubscriptionOptions (Some true).

(** The live topic with a subscription named [Hook]. *)
Definition hookedTopic : TopicBase.TopicBase :=
  exec (TopicBase.subscribeUrl "Hook" "https://example.com/hook" None) liveTopic.

(** The live topic after its first [addToResourcePolicy]. *)
Definition topicWithPolicy : TopicBase.TopicBase :=
  exec (TopicBase.addToResourcePolicy allowPublish) liveTopic.

(** Calls of which the third and the fourth fail. *)
Definition someCalls : list TopicCalls.TopicCall :=
  [ TopicCalls.AddToResourcePolicy allowPublish;
    TopicCalls.SubscribeUrl "Hook" "https://example.com/hook" None;
    TopicCalls.SubscribeUrl "Hook" "http://example.com/other" None;
    TopicCalls.SubscribeUrl "Bad" "ftp://example.com" None;
    TopicCalls.AddToResourcePolicy allowSubscribe;
    TopicCalls.SubscribeEmail "Mail" "ops@example.com" (Some jsonMail) ].

(** Another topic, in another stack, whose node has the id of the live
    topic. *)
Definition otherTopic : TopicBase.TopicBase :=
  TopicBase.mkTopic (mkNode "Topic" ["OtherStack"; "Topic"] [])
                    "arn:aws:sns:us-east-1:123456789012:other" "other" true None.

(** An object that is not a construct, passed as a queue. *)
Definition plainQueue : sqs.IQueue :=
  sqs.mkQueue false (mkNode "Plain" [] []) "arn:aws:sqs:us-east-1:123456789012:plain"
              false None.

Definition subjectTask : @PublishToTopic.PublishToTopic exampleFieldUtils :=
  @PublishToTopic.Build_PublishToTopic exampleFieldUtils liveTopic
    (@PublishToTopic.Build_PublishToTopicProps exampleFieldUtils
       (@PublishToTopic.Build_TaskInput exampleFieldUtils (JsString "hello"))
       None (Some "Alert")).

(** Lists of strings for the values of the test helpers: a string is the
    list of itself. *)
Definition sameList (a b : list string) : bool :=
  if list_eq_dec string_dec a b then true else false.

Definition exampleValues : PipelineTest.TestValues :=
  @PipelineTest.Build_TestValues
    (list string) (fun v => v) sameList (fun _ => true)
    (fun v => map (fun s => [s]) v)
    (fun v => match v with [] => false | _ => true end)
    (fun v key => filter (String.eqb key) v)
    (fun v => v).

Definition allowsPassRole : @PipelineTest.PolicyStatementJson exampleValues :=
  @PipelineTest.Build_PolicyStatementJson exampleValues
    iam.Allow ["iam:PassRole"] [roleA; roleB] [].

Definition deniesPassRole : @PipelineTest.PolicyStatementJson exampleValues :=
  @PipelineTest.Build_PolicyStatementJson exampleValues
    iam.Deny ["iam:PassRole"] [roleA] [].

End MoreExamples.

(* ================================================================== *)
(** * Properties *)

Unset Implicit Arguments.

(** ** The method monad *)

Lemma mbind_ret_l {S A B : Type} (a : A) (k : A -> M S B) (s : S) :
  mbind (ret a) k s = k a s.
Proof. reflexivity. Qed.

Lemma mbind_returns {S A B : Type} (m : M S A) (k : A -> M S B) (s s' : S) (a : A) :
  m s = (inr a, s') -> mbind m k s = k a s'.
Proof. intros E. unfold mbind. rewrite E. reflexivity. Qed.

Lemma mbind_throws {S A B : Type} (m : M S A) (k : A -> M S B) (s s' : S) (e : Exn) :
  m s = (inl e, s') -> mbind m k s = (inl e, s').
Proof. intros E. unfold mbind. rewrite E. reflexivity. Qed.

Lemma attemptEach_cons {S A X : Type} (f : X -> M S A) (x : X) (xs : list X) (s : S) :
  attemptEach f (x :: xs) s = attemptEach f xs (exec (f x) s).
Proof. reflexivity. Qed.

Lemma forEach_cons_returns {S A X : Type} (f : X -> M S A) (x : X) (xs : list X)
      (s s' : S) (a : A) :
  f x s = (inr a, s') -> forEach f (x :: xs) s = forEach f xs s'.
Proof. intros E. simpl. unfold mbind. rewrite E. reflexivity. Qed.

(** ** Construct nodes *)

Section NodeFacts.
Variable C : Type.

Lemma lookupChild_app (name : string) (l1 l2 : list (string * C)) :
  lookupChild name (l1 ++ l2)
  = match lookupChild name l1 with
    | Some c => Some c
    | None => lookupChild name l2
    end.
Proof.
  induction l1 as [|[k c] l1 IH]; simpl; [reflexivity|].
  destruct (String.eqb k name); [reflexivity|exact IH].
Qed.

Lemma addChild_fresh (name : string) (c : C) (n : ConstructNode C) :
  tryFindChild n name = None ->
  addChild name c n = (inr tt, mkNode (id n) (path n) (children n ++ [(name, c)])).
Proof. intros E. unfold addChild. rewrite E. reflexivity. Qed.

Lemma addChild_duplicate (name : string) (c c0 : C) (n : ConstructNode C) :
  tryFindChild n name = Some c0 ->
  addChild name c n = (inl (DuplicateIdError name), n).
Proof. intros E. unfold addChild. rewrite E. reflexivity. Qed.

Lemma tryFindChild_added (name : string) (c : C) (n : ConstructNode C) :
  tryFindChild n name = None ->
  tryFindChild (exec (addChild name c) n) name = Some c.
Proof.
  intros E. unfold exec. rewrite (addChild_fresh _ _ _ E). simpl.
  unfold tryFindChild in *. simpl. rewrite lookupChild_app, E. simpl.
  rewrite String.eqb_refl. reflexivity.
Qed.

(** A child once found stays: children are only ever appended. *)
Lemma tryFindChild_kept (name other : string) (c c0 : C) (n : ConstructNode C) :
  tryFindChild n name = Some c0 ->
  tryFindChild (exec (addChild other c) n) name = Some c0.
Proof.
  intros E. unfold exec, addChild.
  destruct (tryFindChild n other); simpl; [exact E|].
  unfold tryFindChild in *. simpl. rewrite lookupChild_app, E. reflexivity.
Qed.
End NodeFacts.

(** ** Step scaling adjustments *)

Module AdjustmentFacts.
Section WithCdk.
Context `{Cdk}.
Import StepScalingAction.

Lemma hasBound_false (tier : AdjustmentTier) :
  hasBound tier = false <-> lowerBound tier = None /\ upperBound tier = None.
Proof.
  unfold hasBound. destruct (lowerBound tier), (upperBound tier);
    split; intros E; try discriminate; try (destruct E; discriminate); auto.
Qed.

Lemma hasBound_true (tier : AdjustmentTier) :
  hasBound tier = true <-> lowerBound tier <> None \/ upperBound tier <> None.
Proof.
  unfold hasBound. destruct (lowerBound tier), (upperBound tier); split;
    intros E; try reflexivity; try (left; discriminate); try (right; discriminate);
    try discriminate.
  destruct E as [E|E]; contradiction.
Qed.

Lemma addAdjustment_run (tier : AdjustmentTier) (this : StepScalingAction) :
  addAdjustment tier this
  = if hasBound tier
    then (inr tt, mkAction (node this) (scalingPolicyArn this)
                           (adjustments this ++ [stepOf tier]))
    else (inl InvalidTierError, this).
Proof.
  unfold addAdjustment, hasBound.
  destruct (lowerBound tier), (upperBound tier); reflexivity.
Qed.

(** Calls in a row, each failing or not: the captured sequence grows by
    the accepted tiers, in call order. *)
Lemma attemptEach_addAdjustment (tiers : list AdjustmentTier) :
  forall this : StepScalingAction,
    attemptEach addAdjustment tiers this
    = (inr tt, mkAction (node this) (scalingPolicyArn this)
                        (adjustments this ++ map stepOf (filter hasBound tiers))).
Proof.
  induction tiers as [|tier tiers IH]; intros this.
  - simpl. rewrite app_nil_r. destruct this; reflexivity.
  - rewrite attemptEach_cons. unfold exec. rewrite addAdjustment_run, IH.
    simpl filter. destruct (hasBound tier); simpl.
    + rewrite <- app_assoc. reflexivity.
    + reflexivity.
Qed.

Lemma new_action_inv (id : string) (props : StepScalingActionProps) (scope scope' : Construct)
      (this : StepScalingAction) (resource : CfnScalingPolicy) :
  new id props scope = (inr (this, resource), scope') ->
  adjustments this = []
  /\ path (node this) = path scope ++ [id]
  /\ cfnPolicyName resource = orElse (policyName props) (makeUniqueId (path scope ++ [id]))
  /\ stepAdjustments (stepScalingPolicyConfiguration resource)
     = makeLazy (path scope ++ [id]) (reads adjustments (fun a => a)).
Proof.
  unfold new, mbind, addChild.
  destruct (tryFindChild scope id); [discriminate|].
  simpl. intros E. injection E as <- <- <-. simpl. auto.
Qed.

Lemma resolve_stepAdjustments (provenance : list string) (this : StepScalingAction) :
  resolve (makeLazy provenance (reads adjustments (fun a => a))) this
  = (inr (adjustments this), this).
Proof. reflexivity. Qed.

(** C1.  [addAdjustment] throws the error the spec calls
    [InvalidTierError], leaving the action as it was, when the tier has
    neither [lowerBound] nor [upperBound]; with at least one of them it
    returns and the tier's entry is pushed onto the captured sequence.
    Whatever the bounds are, after any calls on a new action the
    resource's Token resolves to the entries of the accepted tiers, in
    call order. *)
Theorem addAdjustment_keeps_call_order :
  forall (tier : AdjustmentTier) (this : StepScalingAction),
    (lowerBound tier = None /\ upperBound tier = None ->
     addAdjustment tier this = (inl InvalidTierError, this))
    /\ (lowerBound tier <> None \/ upperBound tier <> None ->
        addAdjustment tier this
        = (inr tt, mkAction (node this) (scalingPolicyArn this)
                            (adjustments this ++ [stepOf tier])))
    /\ (forall (id : string) (props : StepScalingActionProps)
               (scope scope' : Construct) (resource : CfnScalingPolicy)
               (tiers : list AdjustmentTier),
           new id props scope = (inr (this, resource), scope') ->
           resolvedStepAdjustments resource
             (exec (attemptEach addAdjustment tiers) this)
           = (inr (map stepOf (filter hasBound tiers)),
              exec (attemptEach addAdjustment tiers) this)).
Proof.
  intros tier this. repeat split.
  - intros E. apply hasBound_false in E. rewrite addAdjustment_run, E. reflexivity.
  - intros E. apply hasBound_true in E. rewrite addAdjustment_run, E. reflexivity.
  - intros id props scope scope' resource tiers E.
    destruct (new_action_inv _ _ _ _ _ _ E) as (E0 & _ & _ & Etok).
    unfold resolvedStepAdjustments. rewrite Etok, resolve_stepAdjustments.
    unfold exec. rewrite attemptEach_addAdjustment. simpl. rewrite E0. reflexivity.
Qed.

End WithCdk.

Import Examples.

Example new_scaling :
  StepScalingAction.new "Scaling" scalingProps exampleStack
  = (inr (scaling, scalingResource), stackWithScaling).
Proof. reflexivity. Qed.

(** C1 on the scenario: the unbounded tier is refused, the other two are
    accepted, and the sequence resolves in call order although the bounds
    are not increasing. *)
Lemma addAdjustment_keeps_call_order_witness :
  StepScalingAction.addAdjustment unbounded scaling
  = (inl StepScalingAction.InvalidTierError, scaling)
  /\ StepScalingAction.addAdjustment from10 scaling
     = (inr tt,
        StepScalingAction.mkAction
          (StepScalingAction.node scaling)
          (StepScalingAction.scalingPolicyArn scaling)
          (StepScalingAction.adjustments scaling
           ++ [StepScalingAction.stepOf from10]))
  /\ StepScalingAction.resolvedStepAdjustments scalingResource
       (exec (attemptEach StepScalingAction.addAdjustment
                          [from10; unbounded; upTo10]) scaling)
     = (inr (map StepScalingAction.stepOf
                 (filter StepScalingAction.hasBound [from10; unbounded; upTo10])),
        exec (attemptEach StepScalingAction.addAdjustment
                          [from10; unbounded; upTo10]) scaling).
Proof.
  destruct (addAdjustment_keeps_call_order unbounded scaling) as (Hnone & _ & _).
  destruct (addAdjustment_keeps_call_order from10 scaling) as (_ & Hsome & Hall).
  split; [apply Hnone; split; reflexivity|].
  split; [apply Hsome; left; discriminate|].
  apply (Hall "Scaling" scalingProps exampleStack stackWithScaling).
  reflexivity.
Defined.

Example scenario_resolves_in_call_order :
  fst (StepScalingAction.resolvedStepAdjustments scalingResource
         (exec (attemptEach StepScalingAction.addAdjustment
                            [from10; unbounded; upTo10]) scaling))
  = inr [StepScalingAction.stepOf from10; StepScalingAction.stepOf upTo10].
Proof. reflexivity. Qed.

End AdjustmentFacts.

(** ** Alarm actions *)

Module AlarmFacts.
Section WithCdk.
Context `{MetricApi}.
Import Alarm.

Lemma new_alarm_inv (id : string) (props : AlarmProps) (scope scope' : Construct)
      (this : Alarm) (resource : CfnAlarm) :
  new id props scope = (inr (this, resource), scope') ->
  (alarmActionArns this = None
   /\ insufficientDataActionArns this = None
   /\ okActionArns this = None)
  /\ (alarmActions resource
      = makeLazy (path scope ++ [id]) (reads alarmActionArns (fun a => a))
      /\ insufficientDataActions resource
         = makeLazy (path scope ++ [id]) (reads insufficientDataActionArns (fun a => a))
      /\ okActions resource
         = makeLazy (path scope ++ [id]) (reads okActionArns (fun a => a))).
Proof.
  unfold new, mbind, addChild.
  destruct (tryFindChild scope id); [discriminate|].
  simpl. intros E. injection E as <- <- <-. simpl. unfold toList. auto 7.
Qed.

Lemma resolveActions_reads (id : string) (props : AlarmProps) (scope scope' : Construct)
      (this : Alarm) (resource : CfnAlarm) :
  new id props scope = (inr (this, resource), scope') ->
  forall a : Alarm,
    resolveActions resource a
    = (inr {| resolvedAlarmActions := alarmActionArns a;
              resolvedInsufficientDataActions := insufficientDataActionArns a;
              resolvedOkActions := okActionArns a |}, a).
Proof.
  intros E a. destruct (new_alarm_inv _ _ _ _ _ _ E) as (_ & E1 & E2 & E3).
  unfold resolveActions. rewrite E1, E2, E3. reflexivity.
Qed.

(** What an action is bound to does not change when actions are added. *)
Lemma boundArns_addAlarmAction (actions more : list IAlarmAction) (this : Alarm) :
  boundArns (exec (addAlarmAction more) this) actions = boundArns this actions.
Proof. reflexivity. Qed.

Lemma boundArns_length (this : Alarm) (actions : list IAlarmAction) :
  length (boundArns this actions) = length actions.
Proof. unfold boundArns. apply length_map. Qed.

Lemma addAlarmAction_run (actions : list IAlarmAction) (this : Alarm) :
  addAlarmAction actions this
  = (inr tt,
     mkAlarm (node this) (alarmArn this) (alarmName this) (alarmMetric this)
             (Some (initialised (alarmActionArns this) ++ boundArns this actions))
             (insufficientDataActionArns this) (okActionArns this)).
Proof. reflexivity. Qed.

(** Calls in a row on an alarm whose list is initialised. *)
Lemma forEach_addAlarmAction (calls : list (list IAlarmAction)) :
  forall (this : Alarm) (arns : list string),
    alarmActionArns this = Some arns ->
    forEach addAlarmAction calls this
    = (inr tt,
       mkAlarm (node this) (alarmArn this) (alarmName this) (alarmMetric this)
               (Some (arns ++ flat_map (boundArns this) calls))
               (insufficientDataActionArns this) (okActionArns this)).
Proof.
  induction calls as [|call calls IH]; intros this arns E.
  - simpl. rewrite app_nil_r, <- E. destruct this; reflexivity.
  - rewrite (forEach_cons_returns _ _ _ _ _ _ (addAlarmAction_run call this)).
    rewrite (IH _ (arns ++ boundArns this call)).
    + simpl. rewrite <- app_assoc. reflexivity.
    + simpl. rewrite E. reflexivity.
Qed.

(** C2.  The three action lists of a new alarm are undefined, not empty,
    and the resource resolves with all three fields left out.  Each add
    method initialises its own list on the first call and no other: after
    a call, even one without actions, the field is present. *)
Theorem action_lists_start_absent :
  forall (id : string) (props : AlarmProps) (scope scope' : Construct)
         (this : Alarm) (resource : CfnAlarm),
    new id props scope = (inr (this, resource), scope') ->
    (alarmActionArns this = None
     /\ insufficientDataActionArns this = None
     /\ okActionArns this = None)
    /\ resolveActions resource this = (inr noActions, this)
    /\ (forall actions : list IAlarmAction,
           fst (resolveActions resource (exec (addAlarmAction actions) this))
           = inr {| resolvedAlarmActions := Some (boundArns this actions);
                    resolvedInsufficientDataActions := None;
                    resolvedOkActions := None |})
    /\ (forall actions : list IAlarmAction,
           fst (resolveActions resource (exec (addInsufficientDataAction actions) this))
           = inr {| resolvedAlarmActions := None;
                    resolvedInsufficientDataActions := Some (boundArns this actions);
                    resolvedOkActions := None |})
    /\ (forall actions : list IAlarmAction,
           fst (resolveActions resource (exec (addOkAction actions) this))
           = inr {| resolvedAlarmActions := None;
                    resolvedInsufficientDataActions := None;
                    resolvedOkActions := Some (boundArns this actions) |})
    /\ fst (resolveActions resource (exec (addAlarmAction []) this))
       <> fst (resolveActions resource this).
Proof.
  intros id props scope scope' this resource E.
  destruct (new_alarm_inv _ _ _ _ _ _ E) as ((E1 & E2 & E3) & _).
  pose proof (resolveActions_reads _ _ _ _ _ _ E) as R.
  split; [auto|].
  split; [rewrite R, E1, E2, E3; reflexivity|].
  split; [intros actions; rewrite R; simpl; rewrite E1, E2, E3; reflexivity|].
  split; [intros actions; rewrite R; simpl; rewrite E1, E2, E3; reflexivity|].
  split; [intros actions; rewrite R; simpl; rewrite E1, E2, E3; reflexivity|].
  rewrite !R. simpl. rewrite E1. simpl. intros C. discriminate C.
Qed.

(** C3.  A call of [addAlarmAction] pushes one entry per action, the ARN
    the action's [bind] returns, after the entries already there; after
    any calls on a new alarm, of which there is at least one, the
    resource's alarm-actions Token resolves to the bound ARNs in call
    order. *)
Theorem alarm_actions_in_call_order :
  forall (id : string) (props : AlarmProps) (scope scope' : Construct)
         (this : Alarm) (resource : CfnAlarm),
    new id props scope = (inr (this, resource), scope') ->
    (forall (a : Alarm) (actions : list IAlarmAction),
        alarmActionArns (exec (addAlarmAction actions) a)
        = Some (initialised (alarmActionArns a) ++ boundArns a actions)
        /\ length (boundArns a actions) = length actions)
    /\ (forall (call : list IAlarmAction) (calls : list (list IAlarmAction)),
           resolve (alarmActions resource)
                   (exec (forEach addAlarmAction (call :: calls)) this)
           = (inr (Some (flat_map (boundArns this) (call :: calls))),
              exec (forEach addAlarmAction (call :: calls)) this)).
Proof.
  intros id props scope scope' this resource E.
  destruct (new_alarm_inv _ _ _ _ _ _ E) as ((E1 & _) & Etok & _).
  split.
  - intros a actions. split; [reflexivity|apply boundArns_length].
  - intros call calls. rewrite Etok. unfold exec.
    rewrite (forEach_cons_returns _ _ _ _ _ _ (addAlarmAction_run call this)).
    rewrite (forEach_addAlarmAction calls _ (boundArns this call)).
    + reflexivity.
    + simpl. rewrite E1. reflexivity.
Qed.

End WithCdk.

Import Examples.

Example new_alarmA :
  Alarm.new "A" alarmProps exampleStack = (inr (alarmA, alarmAResource), stackWithA).
Proof. reflexivity. Qed.

(** C2 on alarm [A]: no field before any call; after [addOkAction(X)] only
    the ok actions; an empty list differs from no list. *)
Lemma action_lists_start_absent_witness :
  Alarm.resolveActions alarmAResource alarmA = (inr Alarm.noActions, alarmA)
  /\ fst (Alarm.resolveActions alarmAResource
            (exec (Alarm.addOkAction [actionX]) alarmA))
     = inr (Alarm.Build_ResolvedActions
              None None (Some ["arn:aws:sns:us-east-1:123456789012:X"]))
  /\ fst (Alarm.resolveActions alarmAResource (exec (Alarm.addAlarmAction []) alarmA))
     <> fst (Alarm.resolveActions alarmAResource alarmA).
Proof.
  destruct (@action_lists_start_absent exampleCdk exampleMetricApi
              "A" alarmProps exampleStack stackWithA alarmA alarmAResource eq_refl)
    as (_ & Hnone & _ & _ & Hok & Hempty).
  split; [exact Hnone|]. split; [exact (Hok [actionX])|exact Hempty].
Defined.

(** C3 on alarm [A]: [addAlarmAction(X)] then [addAlarmAction(Y)] resolves
    to [[X.arn, Y.arn]]. *)
Lemma alarm_actions_in_call_order_witness :
  fst (resolve (Alarm.alarmActions alarmAResource)
               (exec (forEach Alarm.addAlarmAction [[actionX]; [actionY]]) alarmA))
  = inr (Some ["arn:aws:sns:us-east-1:123456789012:X";
               "arn:aws:sns:us-east-1:123456789012:Y"]).
Proof.
  destruct (@alarm_actions_in_call_order exampleCdk exampleMetricApi
              "A" alarmProps exampleStack stackWithA alarmA alarmAResource eq_refl)
    as (_ & Hcalls).
  rewrite (Hcalls [actionX] [[actionY]]). reflexivity.
Defined.

End AlarmFacts.

(** ** Tokens *)

Module TokenFacts.

Lemma resolve_constant {S V : Type} (v : V) (s : S) :
  resolve (makeConstant v) s = (inr v, s).
Proof. reflexivity. Qed.

Lemma resolve_reads {S V C : Type} (collection : S -> C) (view : C -> V)
      (provenance : list string) (s : S) :
  resolve (makeLazy provenance (reads collection view)) s
  = (inr (view (collection s)), s).
Proof. reflexivity. Qed.

(** C7.  A Constant Token resolves to its value in every state and
    leaves the state alone.  A Lazy Token whose producer reads a captured
    collection leaves the state alone too, and resolves to the same value
    in any later state in which the collection is what it was.  The
    Tokens of the step scaling policy and of the alarm are such
    Tokens. *)
Theorem resolve_twice_without_mutation :
  (forall (S V : Type) (v : V) (s : S),
      resolve (makeConstant v) s = (inr v, s))
  /\ (forall (S V C : Type) (collection : S -> C) (view : C -> V)
             (provenance : list string) (s1 s2 : S),
         exec (resolve (makeLazy provenance (reads collection view))) s1 = s1
         /\ (collection s2 = collection s1 ->
             fst (resolve (makeLazy provenance (reads collection view)) s2)
             = fst (resolve (makeLazy provenance (reads collection view)) s1)))
  /\ (forall (cdk : Cdk) (id : string)
             (props : StepScalingAction.StepScalingActionProps)
             (scope scope' : Construct)
             (this : StepScalingAction.StepScalingAction)
             (resource : StepScalingAction.CfnScalingPolicy)
             (s1 s2 : StepScalingAction.StepScalingAction),
         StepScalingAction.new id props scope = (inr (this, resource), scope') ->
         StepScalingAction.adjustments s2 = StepScalingAction.adjustments s1 ->
         exec (StepScalingAction.resolvedStepAdjustments resource) s1 = s1
         /\ fst (StepScalingAction.resolvedStepAdjustments resource s2)
            = fst (StepScalingAction.resolvedStepAdjustments resource s1))
  /\ (forall (cdk : Cdk) (api : MetricApi) (id : string) (props : Alarm.AlarmProps)
             (scope scope' : Construct) (this : Alarm.Alarm)
             (resource : Alarm.CfnAlarm) (s1 s2 : Alarm.Alarm),
         Alarm.new id props scope = (inr (this, resource), scope') ->
         (exec (resolve (Alarm.alarmActions resource)) s1 = s1
          /\ exec (resolve (Alarm.insufficientDataActions resource)) s1 = s1
          /\ exec (resolve (Alarm.okActions resource)) s1 = s1)
         /\ (Alarm.alarmActionArns s2 = Alarm.alarmActionArns s1 ->
             fst (resolve (Alarm.alarmActions resource) s2)
             = fst (resolve (Alarm.alarmActions resource) s1))
         /\ (Alarm.insufficientDataActionArns s2 = Alarm.insufficientDataActionArns s1 ->
             fst (resolve (Alarm.insufficientDataActions resource) s2)
             = fst (resolve (Alarm.insufficientDataActions resource) s1))
         /\ (Alarm.okActionArns s2 = Alarm.okActionArns s1 ->
             fst (resolve (Alarm.okActions resource) s2)
             = fst (resolve (Alarm.okActions resource) s1))).
Proof.
  split; [intros; apply resolve_constant|].
  split.
  { intros S V C collection view provenance s1 s2.
    rewrite !resolve_reads. unfold exec. rewrite resolve_reads. simpl.
    split; [reflexivity|]. intros ->. reflexivity. }
  split.
  { intros cdk id props scope scope' this resource s1 s2 E Eq.
    destruct (AdjustmentFacts.new_action_inv _ _ _ _ _ _ E) as (_ & _ & _ & Etok).
    unfold StepScalingAction.resolvedStepAdjustments, exec.
    rewrite Etok, !resolve_reads. simpl. rewrite Eq. auto. }
  intros cdk api id props scope scope' this resource s1 s2 E.
  destruct (AlarmFacts.new_alarm_inv _ _ _ _ _ _ E) as (_ & E1 & E2 & E3).
  unfold exec. rewrite E1, E2, E3, !resolve_reads. simpl.
  repeat split; intros ->; reflexivity.
Qed.

Import Examples.

(** C7 on alarm [A]: each action list resolves to the same value before
    and after a call that does not touch it; on the step scaling action;
    and on a Token reading the first component of a pair. *)
Lemma resolve_twice_without_mutation_witness :
  (fst (resolve (Alarm.alarmActions alarmAResource)
                (exec (Alarm.addOkAction [actionY])
                      (exec (Alarm.addAlarmAction [actionX]) alarmA)))
   = fst (resolve (Alarm.alarmActions alarmAResource)
                  (exec (Alarm.addAlarmAction [actionX]) alarmA))
   /\ fst (resolve (Alarm.insufficientDataActions alarmAResource)
                   (exec (Alarm.addOkAction [actionY]) alarmA))
      = fst (resolve (Alarm.insufficientDataActions alarmAResource) alarmA)
   /\ fst (resolve (Alarm.okActions alarmAResource)
                   (exec (Alarm.addAlarmAction [actionX]) alarmA))
      = fst (resolve (Alarm.okActions alarmAResource) alarmA))
  /\ fst (StepScalingAction.resolvedStepAdjustments scalingResource
            (exec (StepScalingAction.addAdjustment unbounded)
                  (exec (StepScalingAction.addAdjustment from10) scaling)))
     = fst (StepScalingAction.resolvedStepAdjustments scalingResource
              (exec (StepScalingAction.addAdjustment from10) scaling))
  /\ fst (resolve (makeLazy [] (reads (@fst (list nat) nat) (@length nat))) ([1; 2], 7))
     = fst (resolve (makeLazy [] (reads (@fst (list nat) nat) (@length nat))) ([1; 2], 5)).
Proof.
  destruct resolve_twice_without_mutation as (_ & Hreads & Hsteps & Hactions).
  split; [|split].
  - destruct (Hactions exampleCdk exampleMetricApi "A" alarmProps exampleStack
                       stackWithA alarmA alarmAResource
                       (exec (Alarm.addAlarmAction [actionX]) alarmA)
                       (exec (Alarm.addOkAction [actionY])
                             (exec (Alarm.addAlarmAction [actionX]) alarmA))
                       eq_refl) as (_ & Halarm & _).
    destruct (Hactions exampleCdk exampleMetricApi "A" alarmProps exampleStack
                       stackWithA alarmA alarmAResource
                       alarmA (exec (Alarm.addOkAction [actionY]) alarmA)
                       eq_refl) as (_ & _ & Hinsufficient & _).
    destruct (Hactions exampleCdk exampleMetricApi "A" alarmProps exampleStack
                       stackWithA alarmA alarmAResource
                       alarmA (exec (Alarm.addAlarmAction [actionX]) alarmA)
                       eq_refl) as (_ & _ & _ & Hok).
    split; [apply Halarm; reflexivity|].
    split; [apply Hinsufficient; reflexivity|apply Hok; reflexivity].
  - apply (Hsteps exampleCdk "Scaling" scalingProps exampleStack stackWithScaling
                  scaling scalingResource); reflexivity.
  - destruct (Hreads (list nat * nat)%type nat (list nat) (@fst (list nat) nat)
                     (@length nat) [] ([1; 2], 5) ([1; 2], 7)) as (_ & Hsame).
    apply Hsame. reflexivity.
Defined.

End TokenFacts.

(** ** Topics *)

Module TopicFacts.
Import TopicBase.

Ltac next_char :=
  match goal with
  | |- context [prefix (String _ _) ?url] =>
      is_var url; destruct url as [|? url]; cbn [prefix]
  | |- context [ascii_dec ?a ?b] =>
      destruct (ascii_dec a b) as [E|?]; [try discriminate E; try subst|]; cbn [prefix]
  end; try (intros; discriminate); try reflexivity.

Lemma https_is_not_http (url : string) :
  prefix "https:" url = true -> prefix "http://" url = false.
Proof. repeat next_char. Qed.

Lemma https_colon_slashes (url : string) :
  prefix "https://" url = true -> prefix "https:" url = true.
Proof. repeat next_char. Qed.

(** On a URL [subscribeUrl] accepts, starting with ['https:'] is starting
    with ['https://']. *)
Lemma accepted_https (url : string) :
  prefix "http://" url = true \/ prefix "https://" url = true ->
  prefix "https:" url = prefix "https://" url.
Proof.
  intros [E|E].
  - destruct (prefix "https:" url) eqn:E1.
    + apply https_is_not_http in E1. congruence.
    + destruct (prefix "https://" url) eqn:E2; [|reflexivity].
      apply https_colon_slashes in E2. congruence.
  - rewrite E. apply https_colon_slashes, E.
Qed.

Lemma newSubscription_fresh (name : string) (props : SubscriptionProps) (scope : Construct) :
  tryFindChild scope name = None ->
  newSubscription name props scope
  = (inr (mkSubscription name props),
     mkNode (id scope) (path scope)
            (children scope
             ++ [(name, SubscriptionChild (mkSubscription name props))])).
Proof.
  intros E. unfold newSubscription, mbind. rewrite (addChild_fresh _ _ _ _ E).
  reflexivity.
Qed.

Lemma newSubscription_duplicate (name : string) (props : SubscriptionProps)
      (scope : Construct) (c : Child) :
  tryFindChild scope name = Some c ->
  newSubscription name props scope = (inl (DuplicateIdError name), scope).
Proof.
  intros E. unfold newSubscription, mbind. rewrite (addChild_duplicate _ _ _ _ _ E).
  reflexivity.
Qed.

(** *** [subscribeUrl] *)

(** C9.  [subscribeUrl] throws, and leaves the topic as it was, for every
    URL that starts with neither ['http://'] nor ['https://'].  For any
    other URL it is [new Subscription(this, name, ...)] with the URL as
    endpoint and the protocol [Https] if the URL starts with ['https:']
    and [Http] if not; under a name no child of the topic has yet, that
    subscription is created and returned. *)
Theorem subscribeUrl_selects_protocol :
  forall (name url : string) (rawMessageDelivery : option bool) (this : TopicBase),
    (prefix "http://" url = false -> prefix "https://" url = false ->
     subscribeUrl name url rawMessageDelivery this = (inl invalidUrl, this))
    /\ (prefix "http://" url = true \/ prefix "https://" url = true ->
        let props :=
          mkSubscriptionProps (topicArn this) url
                              (if prefix "https:" url then Https else Http)
                              rawMessageDelivery in
        subscribeUrl name url rawMessageDelivery this
        = onNode (newSubscription name props) this
        /\ (tryFindChild (node this) name = None ->
            subscribeUrl name url rawMessageDelivery this
            = (inr (mkSubscription name props),
               mkTopic
                 (mkNode (id (node this)) (path (node this))
                         (children (node this)
                          ++ [(name, SubscriptionChild (mkSubscription name props))]))
                 (topicArn this) (topicName this) (autoCreatePolicy this)
                 (policy this)))).
Proof.
  intros name url raw this. split.
  - intros E1 E2. unfold subscribeUrl. rewrite E1, E2. reflexivity.
  - intros Hacc props.
    assert (Hrun : subscribeUrl name url raw this
                   = onNode (newSubscription name props) this).
    { unfold subscribeUrl.
      destruct Hacc as [E|E]; rewrite E; simpl; [reflexivity|].
      rewrite andb_false_r. reflexivity. }
    split; [exact Hrun|].
    intros Hfresh. rewrite Hrun. unfold onNode.
    rewrite (newSubscription_fresh _ _ _ Hfresh). reflexivity.
Qed.

(** *** [addToResourcePolicy] *)

Lemma addToResourcePolicy_reuses (st : iam.PolicyStatement) (this : TopicBase)
      (p : TopicPolicy) :
  policy this = Some p ->
  addToResourcePolicy st this = (inr tt, withPolicy (addStatement st p) this).
Proof.
  intros E. unfold addToResourcePolicy, mbind. rewrite E. simpl. rewrite E.
  reflexivity.
Qed.

Lemma addToResourcePolicy_imported (st : iam.PolicyStatement) (this : TopicBase) :
  autoCreatePolicy this = false -> policy this = None ->
  addToResourcePolicy st this = (inr tt, this).
Proof.
  intros E1 E2. unfold addToResourcePolicy, mbind. rewrite E1, E2. simpl.
  rewrite E2. reflexivity.
Qed.

Lemma addToResourcePolicy_creates (st : iam.PolicyStatement) (this : TopicBase) :
  autoCreatePolicy this = true -> policy this = None ->
  tryFindChild (node this) "Policy" = None ->
  addToResourcePolicy st this
  = (inr tt,
     mkTopic (withPolicyChild this) (topicArn this) (topicName this) true
             (Some (mkPolicy [topicArn this] [st]))).
Proof.
  intros E1 E2 E3.
  unfold addToResourcePolicy, mbind, newTopicPolicy, mbind, onNode.
  rewrite E1, E2, (addChild_fresh _ _ _ _ E3). simpl. rewrite E1. reflexivity.
Qed.

Lemma addToResourcePolicy_clash (st : iam.PolicyStatement) (this : TopicBase) (c : Child) :
  autoCreatePolicy this = true -> policy this = None ->
  tryFindChild (node this) "Policy" = Some c ->
  addToResourcePolicy st this = (inl (DuplicateIdError "Policy"), this).
Proof.
  intros E1 E2 E3.
  unfold addToResourcePolicy, mbind, newTopicPolicy, mbind, onNode.
  rewrite E1, E2, (addChild_duplicate _ _ _ _ _ E3). simpl.
  destruct this; simpl in *. reflexivity.
Qed.

Lemma forEach_reuses (sts : list iam.PolicyStatement) :
  forall (this : TopicBase) (p : TopicPolicy),
    policy this = Some p ->
    forEach addToResourcePolicy sts this
    = (inr tt, withPolicy (mkPolicy (topics p) (document p ++ sts)) this).
Proof.
  induction sts as [|st sts IH]; intros this p E.
  - simpl. rewrite app_nil_r. destruct this as [n a m c q]. simpl in E.
    subst q. destruct p. reflexivity.
  - rewrite (forEach_cons_returns _ _ _ _ _ _ (addToResourcePolicy_reuses st this p E)).
    rewrite (IH _ (addStatement st p)); [|reflexivity].
    unfold withPolicy, addStatement. simpl. rewrite <- app_assoc. reflexivity.
Qed.

Lemma forEach_imported (sts : list iam.PolicyStatement) (this : TopicBase) :
  autoCreatePolicy this = false -> policy this = None ->
  forEach addToResourcePolicy sts this = (inr tt, this).
Proof.
  intros E1 E2. induction sts as [|st sts IH]; [reflexivity|].
  rewrite (forEach_cons_returns _ _ _ _ _ _ (addToResourcePolicy_imported st this E1 E2)).
  exact IH.
Qed.

(** The methods that register children leave the policy alone: a topic
    with [autoCreatePolicy] false never gets a policy. *)
Lemma onNode_keeps_policy {A : Type} (m : M Construct A) (this : TopicBase) :
  autoCreatePolicy (exec (onNode m) this) = autoCreatePolicy this
  /\ policy (exec (onNode m) this) = policy this.
Proof.
  unfold exec, onNode. destruct (m (node this)) as [outcome n]. split; reflexivity.
Qed.

Lemma imported_stays_without_policy (this : TopicBase) :
  autoCreatePolicy this = false -> policy this = None ->
  forall (name target : string) (protocol : SubscriptionProtocol)
         (raw : option bool) (options : option EmailSubscriptionOptions)
         (st : iam.PolicyStatement) (this' : TopicBase),
    In this' [ exec (subscribe name target protocol raw) this;
               exec (subscribeEmail name target options) this;
               exec (subscribeUrl name target raw) this;
               exec (addToResourcePolicy st) this ] ->
    autoCreatePolicy this' = false /\ policy this' = None.
Proof.
  intros E1 E2 name target protocol raw options st this' Hin.
  assert (Hnode : forall (A : Type) (m : M Construct A),
             autoCreatePolicy (exec (onNode m) this) = false
             /\ policy (exec (onNode m) this) = None).
  { intros A m. destruct (onNode_keeps_policy m this) as [-> ->]. auto. }
  simpl in Hin. destruct Hin as [<-|[<-|[<-|[<-|[]]]]].
  - apply Hnode.
  - apply Hnode.
  - unfold exec, subscribeUrl.
    destruct (negb (prefix "http://" target) && negb (prefix "https://" target));
      [simpl; auto|apply Hnode].
  - unfold exec. rewrite (addToResourcePolicy_imported st this E1 E2). auto.
Qed.

(** C4.  On a live topic without a policy, [addToResourcePolicy] is
    [new TopicPolicy(this, 'Policy', ...)] followed by what a later call
    does; with the id ['Policy'] free, the policy child is created with
    the statement as its document.  On a topic that has its policy, the
    call creates nothing and appends the statement to the document, so
    that any calls in a row leave one policy child whose document lists
    the statements in call order.  On an imported topic
    ([autoCreatePolicy] false, no policy) any calls return and change
    nothing, and synthesizing an imported topic that stands alone after a
    call describes no resource at all. *)
Theorem addToResourcePolicy_live_or_imported :
  forall (st : iam.PolicyStatement) (this : TopicBase),
    (autoCreatePolicy this = true -> policy this = None ->
     addToResourcePolicy st this
     = (newTopicPolicy ;;; addToResourcePolicy st)%method this
     /\ (tryFindChild (node this) "Policy" = None ->
         forall sts : list iam.PolicyStatement,
           forEach addToResourcePolicy (st :: sts) this
           = (inr tt,
              mkTopic (withPolicyChild this) (topicArn this) (topicName this) true
                      (Some (mkPolicy [topicArn this] (st :: sts))))))
    /\ (forall p : TopicPolicy,
           policy this = Some p ->
           addToResourcePolicy st this
           = (inr tt,
              mkTopic (node this) (topicArn this) (topicName this)
                      (autoCreatePolicy this)
                      (Some (mkPolicy (topics p) (document p ++ [st])))))
    /\ (autoCreatePolicy this = false -> policy this = None ->
        (forall sts : list iam.PolicyStatement,
            forEach addToResourcePolicy sts this = (inr tt, this))
        /\ (forall cdk : Cdk,
               children (node this) = [] ->
               Synthesizer.synthesize
                 (Trees.topicTree (exec (addToResourcePolicy st) this))
                 (exec (addToResourcePolicy st) this)
               = (inr [], this))).
Proof.
  intros st this. split; [|split].
  - intros E1 E2. split.
    + unfold addToResourcePolicy at 1. unfold mbind. rewrite E1, E2.
      destruct (newTopicPolicy this) as [[e|[]] this1] eqn:En; [reflexivity|].
      assert (Ep : policy this1 = Some (mkPolicy [topicArn this] [])).
      { revert En. unfold newTopicPolicy, mbind, onNode.
        destruct (addChild "Policy" PolicyChild (node this)) as [[e|[]] n];
          [discriminate|].
        simpl. intros En. injection En as <-. reflexivity. }
      rewrite (addToResourcePolicy_reuses st this1 _ Ep), Ep. reflexivity.
    + intros E3 sts.
      rewrite (forEach_cons_returns _ _ _ _ _ _
                 (addToResourcePolicy_creates st this E1 E2 E3)).
      rewrite (forEach_reuses sts _ (mkPolicy [topicArn this] [st]));
        reflexivity.
  - intros p E. rewrite (addToResourcePolicy_reuses st this p E). reflexivity.
  - intros E1 E2. split.
    + intros sts. apply forEach_imported; assumption.
    + intros cdk E3. unfold exec.
      rewrite (addToResourcePolicy_imported st this E1 E2). simpl.
      unfold Synthesizer.synthesize, Trees.topicTree. rewrite E3. reflexivity.
Qed.

(** *** [subscribeQueue] *)

Lemma sqs_addToResourcePolicy_keeps (st : iam.PolicyStatement) (queue : sqs.IQueue)
      (name : string) (c : Child) :
  tryFindChild (sqs.node queue) name = Some c ->
  tryFindChild (sqs.node (exec (sqs.addToResourcePolicy st) queue)) name = Some c
  /\ sqs.isConstruct (exec (sqs.addToResourcePolicy st) queue) = sqs.isConstruct queue
  /\ id (sqs.node (exec (sqs.addToResourcePolicy st) queue)) = id (sqs.node queue).
Proof.
  intros E. unfold exec, sqs.addToResourcePolicy, mbind.
  destruct (sqs.policy queue) as [document|] eqn:Ep.
  - simpl. rewrite Ep. simpl. auto.
  - destruct (sqs.autoCreatePolicy queue).
    + unfold sqs.onNode, addChild.
      destruct (tryFindChild (sqs.node queue) "Policy"); simpl; [auto|].
      unfold tryFindChild in *. simpl. rewrite lookupChild_app, E. auto.
    + simpl. rewrite Ep. simpl. auto.
Qed.

Lemma subscribeQueue_returns (this : TopicBase) (raw : option bool)
      (queue queue' : sqs.IQueue) (sub : Subscription) :
  subscribeQueue this raw queue = (inr sub, queue') ->
  sqs.isConstruct queue' = true
  /\ id (sqs.node queue') = id (sqs.node queue)
  /\ sub = mkSubscription (id (node this) ++ "Subscription")%string
             (mkSubscriptionProps (topicArn this) (sqs.queueArn queue) Sqs raw)
  /\ tryFindChild (sqs.node queue') (id (node this) ++ "Subscription")%string
     = Some (SubscriptionChild sub).
Proof.
  unfold subscribeQueue.
  destruct (sqs.isConstruct queue) eqn:Ec; simpl; [|discriminate].
  destruct (tryFindChild (sqs.node queue) (id (node this) ++ "Subscription"))
    eqn:Ef; [discriminate|].
  unfold mbind at 1. unfold sqs.onNode at 1.
  rewrite (newSubscription_fresh _ _ _ Ef).
  set (props := mkSubscriptionProps (topicArn this) (sqs.queueArn queue) Sqs raw).
  set (name := (id (node this) ++ "Subscription")%string) in *.
  set (queue1 := sqs.mkQueue _ _ _ _ _).
  assert (Ek : tryFindChild (sqs.node queue1) name
               = Some (SubscriptionChild (mkSubscription name props))).
  { unfold queue1, tryFindChild in *. simpl. rewrite lookupChild_app, Ef. simpl.
    rewrite String.eqb_refl. reflexivity. }
  destruct (sqs_addToResourcePolicy_keeps (sendMessageStatement this queue)
              queue1 name _ Ek) as (K1 & K2 & K3).
  unfold exec in K1, K2, K3. unfold mbind.
  destruct (sqs.addToResourcePolicy (sendMessageStatement this queue) queue1)
    as [[e|[]] queue2]; [discriminate|].
  simpl in *. intros E. injection E as <- <-.
  repeat split; [rewrite K2; exact Ec|exact K3|exact K1].
Qed.

(** C5.  Creating a child under an id the parent already has fails with
    [DuplicateIdError] and leaves the parent, and with it the child
    created first, as it was.  A second [subscribeQueue] of a queue to
    the same topic throws because the queue already has the child
    [<topic id>Subscription]; the queue and its first subscription stay
    as they were. *)
Theorem duplicate_child_is_refused :
  (forall (C : Type) (parent : ConstructNode C) (name : string) (first again : C),
      tryFindChild parent name = Some first ->
      addChild name again parent = (inl (DuplicateIdError name), parent))
  /\ (forall (C : Type) (parent : ConstructNode C) (name : string) (first again : C),
         tryFindChild parent name = None ->
         addChild name again (exec (addChild name first) parent)
         = (inl (DuplicateIdError name), exec (addChild name first) parent)
         /\ tryFindChild (exec (addChild name first) parent) name = Some first)
  /\ (forall (this : TopicBase) (raw again : option bool)
             (queue queue' : sqs.IQueue) (sub : Subscription),
         subscribeQueue this raw queue = (inr sub, queue') ->
         subscribeQueue this again queue'
         = (inl (alreadySubscribed this queue'), queue')
         /\ tryFindChild (sqs.node queue') (id (node this) ++ "Subscription")%string
            = Some (SubscriptionChild sub)).
Proof.
  split; [|split].
  - intros C parent name first again E. exact (addChild_duplicate C name again first parent E).
  - intros C parent name first again E.
    pose proof (tryFindChild_added C name first parent E) as E1.
    split; [|exact E1].
    exact (addChild_duplicate C name again first _ E1).
  - intros this raw again queue queue' sub E.
    destruct (subscribeQueue_returns _ _ _ _ _ E) as (E1 & _ & _ & E2).
    split; [|exact E2].
    unfold subscribeQueue. rewrite E1, E2. reflexivity.
Qed.

Import Examples.

(** C9 on the live topic: an [ftp:] URL is refused, an [https:] URL gives
    [Https], an [http:] URL gives [Http]. *)
Lemma subscribeUrl_selects_protocol_witness :
  subscribeUrl "Hook" "ftp://example.com/hook" None liveTopic
  = (inl invalidUrl, liveTopic)
  /\ fst (subscribeUrl "Hook" "https://example.com/hook" (Some true) liveTopic)
     = inr (mkSubscription "Hook"
              (mkSubscriptionProps (topicArn liveTopic) "https://example.com/hook"
                                   Https (Some true)))
  /\ fst (subscribeUrl "Hook" "http://example.com/hook" None liveTopic)
     = inr (mkSubscription "Hook"
              (mkSubscriptionProps (topicArn liveTopic) "http://example.com/hook"
                                   Http None)).
Proof.
  destruct (subscribeUrl_selects_protocol
              "Hook" "ftp://example.com/hook" None liveTopic) as (Hbad & _).
  destruct (subscribeUrl_selects_protocol
              "Hook" "https://example.com/hook" (Some true) liveTopic) as (_ & Hs).
  destruct (subscribeUrl_selects_protocol
              "Hook" "http://example.com/hook" None liveTopic) as (_ & Hp).
  split; [apply Hbad; reflexivity|]. split.
  - destruct (Hs (or_intror eq_refl)) as (_ & Hfresh).
    rewrite (Hfresh eq_refl). reflexivity.
  - destruct (Hp (or_introl eq_refl)) as (_ & Hfresh).
    rewrite (Hfresh eq_refl). reflexivity.
Defined.

(** C4 on the live and on the imported topic. *)
Lemma addToResourcePolicy_live_or_imported_witness :
  forEach addToResourcePolicy [allowPublish; allowSubscribe] liveTopic
  = (inr tt,
     mkTopic (withPolicyChild liveTopic) (topicArn liveTopic) (topicName liveTopic) true
             (Some (mkPolicy [topicArn liveTopic] [allowPublish; allowSubscribe])))
  /\ addToResourcePolicy allowSubscribe (exec (addToResourcePolicy allowPublish) liveTopic)
     = (inr tt,
        mkTopic (withPolicyChild liveTopic) (topicArn liveTopic) (topicName liveTopic) true
                (Some (mkPolicy [topicArn liveTopic] [allowPublish; allowSubscribe])))
  /\ forEach addToResourcePolicy [allowPublish; allowSubscribe] importedTopic
     = (inr tt, importedTopic)
  /\ @Synthesizer.synthesize exampleCdk _ _
       (Trees.topicTree (exec (addToResourcePolicy allowPublish) importedTopic))
       (exec (addToResourcePolicy allowPublish) importedTopic)
     = (inr [], importedTopic).
Proof.
  destruct (addToResourcePolicy_live_or_imported allowPublish liveTopic)
    as (Hlive & _ & _).
  destruct (addToResourcePolicy_live_or_imported
              allowSubscribe (exec (addToResourcePolicy allowPublish) liveTopic))
    as (_ & Hreuse & _).
  destruct (addToResourcePolicy_live_or_imported allowPublish importedTopic)
    as (_ & _ & Himported).
  destruct (Hlive eq_refl eq_refl) as (_ & Hcalls).
  destruct (Himported eq_refl eq_refl) as (Hnoop & Hsynth).
  split; [exact (Hcalls eq_refl [allowSubscribe])|].
  split; [exact (Hreuse (mkPolicy [topicArn liveTopic] [allowPublish]) eq_refl)|].
  split; [exact (Hnoop [allowPublish; allowSubscribe])|].
  exact (Hsynth exampleCdk eq_refl).
Defined.

Example policy_id_taken :
  addToResourcePolicy allowPublish
    (exec (subscribeUrl "Policy" "https://example.com/hook" None) liveTopic)
  = (inl (DuplicateIdError "Policy"),
     exec (subscribeUrl "Policy" "https://example.com/hook" None) liveTopic).
Proof. reflexivity. Qed.

(** C5 on the example stack and on the live topic and queue. *)
Lemma duplicate_child_is_refused_witness :
  addChild "Scaling" ConstructChild stackWithScaling
  = (inl (DuplicateIdError "Scaling"), stackWithScaling)
  /\ (addChild "Scaling" PolicyChild (exec (addChild "Scaling" ConstructChild) exampleStack)
      = (inl (DuplicateIdError "Scaling"),
         exec (addChild "Scaling" ConstructChild) exampleStack)
      /\ tryFindChild (exec (addChild "Scaling" ConstructChild) exampleStack) "Scaling"
         = Some ConstructChild)
  /\ subscribeQueue liveTopic (Some true) (exec (subscribeQueue liveTopic None) liveQueue)
     = (inl (alreadySubscribed liveTopic (exec (subscribeQueue liveTopic None) liveQueue)),
        exec (subscribeQueue liveTopic None) liveQueue).
Proof.
  destruct duplicate_child_is_refused as (Hdup & Htwice & Hqueue).
  split; [|split].
  - apply (Hdup Child stackWithScaling "Scaling" ConstructChild ConstructChild).
    reflexivity.
  - apply (Htwice Child exampleStack "Scaling" ConstructChild PolicyChild).
    reflexivity.
  - apply (Hqueue liveTopic None (Some true) liveQueue
                  (exec (subscribeQueue liveTopic None) liveQueue)
                  (mkSubscription "TopicSubscription"
                     (mkSubscriptionProps (topicArn liveTopic) (sqs.queueArn liveQueue)
                                          Sqs None))).
    reflexivity.
Defined.

End TopicFacts.

(** ** JavaScript objects *)

Section ObjectFacts.
Variable A : Type.

Lemma getKey_setKey (key k : string) (v : A) (o : list (string * A)) :
  getKey k (setKey key v o) = if String.eqb key k then Some v else getKey k o.
Proof.
  induction o as [|[k0 v0] o IH]; simpl.
  - destruct (String.eqb key k); reflexivity.
  - destruct (String.eqb k0 key) eqn:E0; simpl.
    + apply String.eqb_eq in E0. subst k0.
      destruct (String.eqb key k); reflexivity.
    + destruct (String.eqb k0 k) eqn:E1; [|exact IH].
      apply String.eqb_eq in E1. subst k0. rewrite String.eqb_sym, E0. reflexivity.
Qed.

Lemma getKey_absent (k : string) (o : list (string * A)) :
  ~ In k (keys o) -> getKey k o = None.
Proof.
  induction o as [|[k0 v0] o IH]; simpl; [reflexivity|]. intros N.
  destruct (String.eqb k0 k) eqn:E.
  - apply String.eqb_eq in E. tauto.
  - apply IH. tauto.
Qed.

Lemma keys_setKey (key k : string) (v : A) (o : list (string * A)) :
  In k (keys (setKey key v o)) <-> k = key \/ In k (keys o).
Proof.
  induction o as [|[k0 v0] o IH]; simpl.
  - intuition congruence.
  - destruct (String.eqb k0 key) eqn:E; simpl.
    + apply String.eqb_eq in E. subst k0. intuition congruence.
    + rewrite IH. intuition congruence.
Qed.

Lemma keys_spread (k : string) (extra : list (string * A)) :
  forall base : list (string * A),
    In k (keys (spread base extra)) <-> In k (keys base) \/ In k (keys extra).
Proof.
  unfold spread.
  induction extra as [|[k0 v0] extra IH]; intros base; simpl.
  - tauto.
  - rewrite IH, keys_setKey. simpl. intuition congruence.
Qed.

(** With distinct keys in [extra], [{...base, ...extra}[k]] is [extra[k]]
    if [extra] has the key and [base[k]] if not. *)
Lemma getKey_spread (k : string) (extra : list (string * A)) :
  NoDup (keys extra) ->
  forall base : list (string * A),
    getKey k (spread base extra)
    = match getKey k extra with
      | Some v => Some v
      | None => getKey k base
      end.
Proof.
  unfold spread.
  induction extra as [|[k0 v0] extra IH]; intros D base; simpl; [reflexivity|].
  inversion D as [|? ? Hnotin D']. subst.
  rewrite (IH D'), getKey_setKey.
  destruct (String.eqb k0 k) eqn:E; [|reflexivity].
  apply String.eqb_eq in E. subst k0.
  rewrite (getKey_absent _ _ Hnotin). reflexivity.
Qed.
End ObjectFacts.

(** ** PublishToTopic *)

Module PublishFacts.
Section WithFieldUtils.
Context `{FieldUtils}.
Import PublishToTopic.

(** What the task relies on of [renderObject]: the object it returns has
    distinct keys if its argument has; it renders a key only for a field
    that is defined, under the field's name or under the name followed by
    ['.$']; and it leaves a literal string under its key. *)
Hypothesis rendered_distinct :
  forall o : list (string * JsValue any),
    NoDup (keys o) -> NoDup (keys (renderObject o)).
Hypothesis rendered_keys :
  forall (o : list (string * JsValue any)) (k : string),
    In k (keys (renderObject o)) ->
    exists (k0 : string) (v : JsValue any),
      In (k0, v) o /\ v <> JsUndefined /\ (k = k0 \/ k = (k0 ++ ".$")%string).
Hypothesis rendered_literal :
  forall (o : list (string * JsValue any)) (k s : string),
    NoDup (keys o) ->
    getKey k o = Some (JsString s) ->
    getKey k (renderObject o) = Some (JsString s).

Lemma fields_distinct (this : PublishToTopic) : NoDup (keys (fields this)).
Proof.
  unfold fields, keys. simpl.
  repeat constructor; simpl; intuition discriminate.
Qed.

Lemma TopicArn_not_rendered (this : PublishToTopic) :
  ~ In "TopicArn" (keys (renderObject (fields this))).
Proof.
  intros Hin. destruct (rendered_keys _ _ Hin) as (k0 & v & Hk & _ & Hname).
  unfold fields in Hk. simpl in Hk.
  destruct Hk as [E|[E|[E|[]]]]; injection E as <- _;
    destruct Hname; discriminate.
Qed.

Lemma MessageStructure_not_rendered (this : PublishToTopic) :
  messagePerSubscriptionType (props this) <> Some true ->
  ~ In "MessageStructure" (keys (renderObject (fields this))).
Proof.
  intros Hflag Hin.
  destruct (rendered_keys _ _ Hin) as (k0 & v & Hk & Hdef & Hname).
  unfold fields in Hk. simpl in Hk.
  destruct Hk as [E|[E|[E|[]]]]; injection E as <- <-;
    try (destruct Hname; discriminate).
  destruct (messagePerSubscriptionType (props this)) as [[]|];
    congruence.
Qed.

(** C10.  [bind] returns the resource ARN of the publish integration and
    one statement allowing [sns:Publish] on the topic's ARN.  In the
    parameters [TopicArn] is the topic's ARN, [MessageStructure] is
    ["json"] when [messagePerSubscriptionType] is true and is not a key
    of the object otherwise. *)
Theorem bind_publishes_to_topic :
  forall this : PublishToTopic,
    resourceArn (bind this) = "arn:aws:states:::sns:publish"
    /\ policyStatements (bind this)
       = [iam.mkStatement iam.Allow ["sns:Publish"] []
                          [TopicBase.topicArn (topic this)] []]
    /\ getKey "TopicArn" (parameters (bind this))
       = Some (JsString (TopicBase.topicArn (topic this)))
    /\ (messagePerSubscriptionType (props this) = Some true ->
        getKey "MessageStructure" (parameters (bind this)) = Some (JsString "json"))
    /\ (messagePerSubscriptionType (props this) <> Some true ->
        ~ In "MessageStructure" (keys (parameters (bind this)))).
Proof.
  intros this.
  pose proof (rendered_distinct _ (fields_distinct this)) as D.
  split; [reflexivity|]. split; [reflexivity|]. split; [|split].
  - unfold bind. simpl. rewrite (getKey_spread _ _ _ D).
    rewrite (getKey_absent _ _ _ (TopicArn_not_rendered this)). reflexivity.
  - intros Hflag. unfold bind. simpl. rewrite (getKey_spread _ _ _ D).
    rewrite (rendered_literal (fields this) "MessageStructure" "json"
               (fields_distinct this)); [reflexivity|].
    unfold fields. simpl. rewrite Hflag. reflexivity.
  - intros Hflag. unfold bind. simpl. rewrite keys_spread. simpl.
    intros [[E|[]]|Hin]; [discriminate E|].
    exact (MessageStructure_not_rendered this Hflag Hin).
Qed.

End WithFieldUtils.

Import Examples.

Lemma example_rendered_distinct (o : list (string * JsValue Z)) :
  NoDup (keys o) -> NoDup (keys (filter (@isDefined Z) o)).
Proof.
  induction o as [|[k v] o IH]; simpl; [auto|]. intros D.
  inversion D as [|? ? Hk D']. subst.
  destruct (isDefined (k, v)); simpl; [|exact (IH D')].
  constructor; [|exact (IH D')].
  intros Hin. apply Hk. unfold keys in *. apply in_map_iff in Hin.
  destruct Hin as ([k' v'] & E & Hin). apply filter_In in Hin.
  apply in_map_iff. exists (k', v'). tauto.
Qed.

Lemma example_rendered_keys (o : list (string * JsValue Z)) (k : string) :
  In k (keys (filter (@isDefined Z) o)) ->
  exists (k0 : string) (v : JsValue Z),
    In (k0, v) o /\ v <> JsUndefined /\ (k = k0 \/ k = (k0 ++ ".$")%string).
Proof.
  unfold keys. intros Hin. apply in_map_iff in Hin.
  destruct Hin as ([k0 v] & E & Hin). apply filter_In in Hin. destruct Hin as [Hin Hd].
  exists k0, v. simpl in E. subst k0. split; [exact Hin|]. split; [|left; reflexivity].
  intros ->. discriminate Hd.
Qed.

Lemma example_rendered_literal (o : list (string * JsValue Z)) (k s : string) :
  NoDup (keys o) ->
  getKey k o = Some (JsString s) ->
  getKey k (filter (@isDefined Z) o) = Some (JsString s).
Proof.
  intros _. induction o as [|[k0 v] o IH]; simpl; [auto|].
  destruct (String.eqb k0 k) eqn:E.
  - intros Hv. injection Hv as ->. simpl. rewrite E. reflexivity.
  - intros Hv. destruct (isDefined (k0, v)); simpl; [rewrite E|]; exact (IH Hv).
Qed.

(** C10 for a task with [messagePerSubscriptionType] true and for one
    without it. *)
Lemma bind_publishes_to_topic_witness :
  getKey "MessageStructure"
         (PublishToTopic.parameters (PublishToTopic.bind (publishTask (Some true))))
  = Some (JsString "json")
  /\ ~ In "MessageStructure"
         (keys (PublishToTopic.parameters (PublishToTopic.bind (publishTask None))))
  /\ getKey "TopicArn"
            (PublishToTopic.parameters (PublishToTopic.bind (publishTask None)))
     = Some (JsString "arn:aws:sns:us-east-1:123456789012:live").
Proof.
  destruct (@bind_publishes_to_topic exampleFieldUtils example_rendered_distinct
              example_rendered_keys example_rendered_literal (publishTask (Some true)))
    as (_ & _ & _ & Hjson & _).
  destruct (@bind_publishes_to_topic exampleFieldUtils example_rendered_distinct
              example_rendered_keys example_rendered_literal (publishTask None))
    as (_ & _ & Harn & _ & Hnone).
  split; [apply Hjson; reflexivity|].
  split; [apply Hnone; discriminate|exact Harn].
Defined.

End PublishFacts.

(** ** Merged permission statements *)

Module MergeFacts.
Import iam.

Lemma member_In (x : string) (l : list string) : member x l = true <-> In x l.
Proof.
  unfold member. rewrite existsb_exists. split.
  - intros (y & Hy & E). apply String.eqb_eq in E. subst. exact Hy.
  - intros Hx. exists x. split; [exact Hx|apply String.eqb_refl].
Qed.

Lemma sameActions_iff (a b : list string) :
  sameActions a b = true <-> (forall x, In x a <-> In x b).
Proof.
  unfold sameActions. rewrite andb_true_iff, !forallb_forall.
  setoid_rewrite member_In. firstorder.
Qed.

Lemma effect_eqb_eq (a b : PolicyStatementEffect) : effect_eqb a b = true <-> a = b.
Proof. destruct a, b; simpl; split; congruence. Qed.

Lemma sameKey_iff (a b : PolicyStatement) :
  sameKey a b = true
  <-> effect a = effect b
      /\ (forall x, In x (actions a) <-> In x (actions b))
      /\ condition a = condition b.
Proof.
  unfold sameKey. rewrite !andb_true_iff, effect_eqb_eq, sameActions_iff.
  destruct (condition_eq_dec (condition a) (condition b)); intuition congruence.
Qed.

Lemma sameKey_refl (a : PolicyStatement) : sameKey a a = true.
Proof. apply sameKey_iff. intuition. Qed.

Lemma sameKey_sym (a b : PolicyStatement) : sameKey a b = true -> sameKey b a = true.
Proof.
  rewrite !sameKey_iff. intros (E1 & E2 & E3).
  repeat split; try congruence; apply E2.
Qed.

Lemma sameKey_trans (a b c : PolicyStatement) :
  sameKey a b = true -> sameKey b c = true -> sameKey a c = true.
Proof.
  rewrite !sameKey_iff. intros (E1 & E2 & E3) (F1 & F2 & F3).
  repeat split; try congruence; intros Hx.
  - apply F2, E2, Hx.
  - apply E2, F2, Hx.
Qed.

(** Merging changes the resource list only, so keys are kept. *)
Lemma sameKey_merged_l (d st e : PolicyStatement) :
  sameKey (mergeResources d st) e = sameKey d e.
Proof. reflexivity. Qed.

Lemma sameKey_merged_r (d st e : PolicyStatement) :
  sameKey e (mergeResources d st) = sameKey e d.
Proof. reflexivity. Qed.

Lemma unionResources_In (r : string) (l2 : list string) :
  forall l1 : list string, In r (unionResources l1 l2) <-> In r l1 \/ In r l2.
Proof.
  unfold unionResources.
  induction l2 as [|x l2 IH]; intros l1; simpl; [tauto|].
  rewrite IH. destruct (member x l1) eqn:E.
  - apply member_In in E. intuition (subst; auto).
  - rewrite in_app_iff. simpl. tauto.
Qed.

Lemma unionResources_NoDup (l2 : list string) :
  forall l1 : list string, NoDup l1 -> NoDup (unionResources l1 l2).
Proof.
  unfold unionResources.
  induction l2 as [|x l2 IH]; intros l1 D; simpl; [exact D|].
  apply IH. destruct (member x l1) eqn:E; [exact D|].
  apply NoDup_app; [exact D|repeat constructor; simpl; tauto|].
  intros y Hy [<-|[]]. apply member_In in Hy. congruence.
Qed.

Lemma attachStatement_other (d st : PolicyStatement) (attached : list PolicyStatement) :
  forallb (fun e => negb (sameKey d e)) attached = true ->
  sameKey d st = false ->
  forallb (fun e => negb (sameKey d e)) (attachStatement st attached) = true.
Proof.
  intros Hall Hst. induction attached as [|e rest IH]; simpl.
  - rewrite Hst. reflexivity.
  - simpl in Hall. apply andb_true_iff in Hall as [He Hrest].
    destruct (sameKey e st); simpl.
    + rewrite sameKey_merged_r, He. exact Hrest.
    + rewrite He. apply IH, Hrest.
Qed.

Lemma attachStatement_distinct (st : PolicyStatement) (attached : list PolicyStatement) :
  distinctKeys attached = true -> distinctKeys (attachStatement st attached) = true.
Proof.
  induction attached as [|d rest IH]; simpl; [reflexivity|].
  intros Hd. apply andb_true_iff in Hd as [Hall Hrest].
  destruct (sameKey d st) eqn:E; simpl.
  - rewrite Hrest, andb_true_r. exact Hall.
  - rewrite (IH Hrest), andb_true_r. apply attachStatement_other; assumption.
Qed.

Lemma fold_attach_distinct (sts : list PolicyStatement) :
  forall attached : list PolicyStatement,
    distinctKeys attached = true ->
    distinctKeys (fold_left (fun acc st => attachStatement st acc) sts attached) = true.
Proof.
  induction sts as [|st sts IH]; intros attached D; simpl; [exact D|].
  apply IH, attachStatement_distinct, D.
Qed.

Lemma attachStatement_new (st : PolicyStatement) (attached : list PolicyStatement) :
  (forall d, In d attached -> sameKey d st = false) ->
  attachStatement st attached = attached ++ [st].
Proof.
  induction attached as [|d rest IH]; intros Hnew; simpl; [reflexivity|].
  rewrite (Hnew d (or_introl eq_refl)), IH; [reflexivity|].
  intros e He. apply Hnew. right. exact He.
Qed.

Lemma attachStatement_merge_last (a b : PolicyStatement) (attached : list PolicyStatement) :
  (forall d, In d attached -> sameKey d b = false) ->
  sameKey a b = true ->
  attachStatement b (attached ++ [a]) = attached ++ [mergeResources a b].
Proof.
  induction attached as [|d rest IH]; intros Hnew Hab; simpl.
  - rewrite Hab. reflexivity.
  - rewrite (Hnew d (or_introl eq_refl)), IH; [reflexivity| |exact Hab].
    intros e He. apply Hnew. right. exact He.
Qed.

(** C6.  Two statements with identical effect, action set and condition,
    attached one after the other, leave a single statement: the first
    with the union of both resource lists as its resources.  This holds
    on top of any statements with other keys attached before, and
    whatever is attached, no two statements of the result have the same
    key. *)
Theorem same_key_statements_are_merged :
  forall a b : PolicyStatement,
    sameKey a b = true ->
    attachAll [a; b] = [mergeResources a b]
    /\ (forall r : string,
           In r (resources (mergeResources a b))
           <-> In r (resources a) \/ In r (resources b))
    /\ (effect (mergeResources a b) = effect a
        /\ actions (mergeResources a b) = actions a
        /\ condition (mergeResources a b) = condition a)
    /\ (forall attached : list PolicyStatement,
           (forall d, In d attached -> sameKey d a = false) ->
           attachStatement b (attachStatement a attached)
           = attached ++ [mergeResources a b])
    /\ (forall sts : list PolicyStatement, distinctKeys (attachAll sts) = true).
Proof.
  intros a b Hab. split; [|split; [|split; [|split]]].
  - unfold attachAll. simpl. rewrite Hab. reflexivity.
  - intros r. apply unionResources_In.
  - auto.
  - intros attached Hnew.
    rewrite (attachStatement_new a attached Hnew).
    apply attachStatement_merge_last; [|exact Hab].
    intros d Hd. destruct (sameKey d b) eqn:E; [|reflexivity].
    rewrite <- (Hnew d Hd). symmetry.
    apply (sameKey_trans d b a E), sameKey_sym, Hab.
  - intros sts. apply fold_attach_distinct. reflexivity.
Qed.

Import Examples.

Example changeSet_statements_share_a_key :
  sameKey (changeSetStatement stackA) (changeSetStatement stackB) = true.
Proof. reflexivity. Qed.

(** The test 'uses a single permission statement if the same ChangeSet
    name is used': the statements of the two actions, attached in turn. *)
Example single_permission_statement :
  attachAll [passRole roleA; changeSetStatement stackA;
             passRole roleB; changeSetStatement stackB]
  = [ mkStatement Allow ["iam:PassRole"] [] [roleA; roleB] [];
      mkStatement Allow
        ["cloudformation:CreateChangeSet"; "cloudformation:DeleteChangeSet";
         "cloudformation:DescribeChangeSet"; "cloudformation:DescribeStacks"]
        [] [stackA; stackB]
        [("StringEqualsIfExists", [("cloudformation:ChangeSetName", "MyChangeSet")])] ].
Proof. reflexivity. Qed.

(** C6 on the two ChangeSet statements, attached after a statement with
    another key. *)
Lemma same_key_statements_are_merged_witness :
  attachStatement (changeSetStatement stackB)
    (attachStatement (changeSetStatement stackA) [passRole roleA])
  = [passRole roleA;
     mergeResources (changeSetStatement stackA) (changeSetStatement stackB)]
  /\ (In stackB (resources (mergeResources (changeSetStatement stackA)
                                           (changeSetStatement stackB)))
      <-> In stackB (resources (changeSetStatement stackA))
          \/ In stackB (resources (changeSetStatement stackB))).
Proof.
  destruct (same_key_statements_are_merged
              (changeSetStatement stackA) (changeSetStatement stackB)
              changeSet_statements_share_a_key) as (_ & Hunion & _ & Hafter & _).
  split; [|exact (Hunion stackB)].
  apply (Hafter [passRole roleA]).
  intros d [<-|[]]. reflexivity.
Defined.

End MergeFacts.

(** ** Synthesis *)

Module SynthesisFacts.
Import Synthesizer.

Section NodeInduction.
Variables S V : Type.
Variable P : Node S V -> Prop.
Hypothesis step :
  forall (id : string) (resource : option (Resource S V)) (children : list (Node S V)),
    Forall P children -> P (mkTree id resource children).

Lemma Node_induction (n : Node S V) : P n.
Proof.
  revert n. fix IH 1. intros [id resource children].
  apply step. induction children as [|c cs IHcs]; constructor; [apply IH|exact IHcs].
Qed.
End NodeInduction.

Section WithStore.
Context `{Cdk}.
Variables S V : Type.

Lemma synthesizeResource_readOnly (path : list string) (r : Resource S V) (s : S) :
  readOnly (properties r) -> exec (synthesizeResource path r) s = s.
Proof.
  intros R. unfold exec, synthesizeResource. specialize (R s). unfold exec in R.
  destruct (resolve (properties r) s) as [[e|v] s']; exact R.
Qed.

Lemma synthesizeNode_readOnly (n : Node S V) :
  (forall t, In t (tokens n) -> readOnly t) ->
  forall (scope : list string) (s : S), exec (synthesizeNode scope n) s = s.
Proof.
  induction n as [id resource children IH] using Node_induction.
  intros R scope s. cbn [synthesizeNode]. cbn [tokens] in R.
  set (visit := fix visit (cs : list (Node S V)) : M S (StructuredDocument V) :=
                  match cs with
                  | [] => ret []
                  | c :: cs' =>
                      d <- synthesizeNode (scope ++ [id]) c ;;
                      ds <- visit cs' ;;
                      ret (d ++ ds)
                  end).
  assert (Hvisit : forall s0, exec (visit children) s0 = s0).
  { assert (Rc : forall t,
               In t ((fix all (cs : list (Node S V)) : list (Token S V) :=
                        match cs with
                        | [] => []
                        | c :: cs' => tokens c ++ all cs'
                        end) children) -> readOnly t).
    { intros t Ht. apply R, in_or_app. right. exact Ht. }
    clear R. induction children as [|c cs IHcs]; intros s0; [reflexivity|].
    inversion IH as [|? ? Hc Hcs]. subst.
    cbn [visit]. unfold exec, mbind.
    assert (E : exec (synthesizeNode (scope ++ [id]) c) s0 = s0).
    { apply Hc. intros t Ht. apply Rc, in_or_app. left. exact Ht. }
    unfold exec in E.
    destruct (synthesizeNode (scope ++ [id]) c s0) as [[e|d] s1]; simpl in E;
      subst s1; [reflexivity|].
    assert (E' : exec (visit cs) s0 = s0).
    { apply IHcs; [exact Hcs|]. intros t Ht. apply Rc, in_or_app. right. exact Ht. }
    unfold exec in E'.
    destruct (visit cs s0) as [[e|ds] s2]; simpl in E'; subst s2; reflexivity. }
  unfold exec, mbind. specialize (Hvisit s). unfold exec in Hvisit.
  destruct (visit children s) as [[e|below] s1]; simpl in Hvisit; subst s1;
    [reflexivity|].
  destruct resource as [r|]; [|reflexivity].
  assert (Er : exec (synthesizeResource (scope ++ [id]) r) s = s).
  { apply synthesizeResource_readOnly, R. left. reflexivity. }
  unfold exec in Er.
  destruct (synthesizeResource (scope ++ [id]) r s) as [[e|own] s1]; simpl in Er;
    subst s1; reflexivity.
Qed.

End WithStore.

Section Trees.
Context `{Cdk}.

(** The Tokens in the tree of a step scaling action read the captured
    adjustments, those in the tree of a topic the topic's policy. *)
Lemma actionTree_readOnly (scope : Construct) (id : string)
      (props : StepScalingAction.StepScalingActionProps)
      (this : StepScalingAction.StepScalingAction) :
  forall t,
    In t (tokens (Trees.actionTree this
                    (snd (StepScalingAction.construct scope id props)))) ->
    readOnly t.
Proof. intros t [<-|[]] s. reflexivity. Qed.

Lemma policyProperties_readOnly (provenance : list string) :
  readOnly (makeLazy provenance Trees.policyProperties).
Proof.
  intros s. unfold exec, resolve, Trees.policyProperties.
  destruct (TopicBase.policy s); reflexivity.
Qed.

Lemma topicTree_readOnly (this : TopicBase.TopicBase) :
  forall t, In t (tokens (Trees.topicTree this)) -> readOnly t.
Proof.
  unfold Trees.topicTree. cbn [tokens app].
  induction (children (TopicBase.node this)) as [|[name child] cs IH];
    cbn [map]; intros t Ht; [destruct Ht|].
  apply in_app_or in Ht. destruct Ht as [Ht|Ht]; [|exact (IH t Ht)].
  destruct child; simpl in Ht.
  - destruct Ht.
  - destruct Ht as [<-|[]]. intros state. reflexivity.
  - destruct Ht as [<-|[]]. intros state. reflexivity.
  - destruct Ht as [<-|[]]. apply policyProperties_readOnly.
Qed.
End Trees.

(** C8.  Synthesizing a tree whose Tokens leave their objects alone
    leaves the objects as they were, so that synthesizing again yields
    the same outcome, hence the same bytes under any serialisation; the
    trees of a step scaling action and of a topic are such trees.  The
    unique id is a function of the path: two nodes with the same path
    have the same unique id, and a step scaling action created without a
    policy name names its policy by the unique id of its own path. *)
Theorem synthesis_is_deterministic :
  forall cdk : Cdk,
    (forall (S V : Type) (root : Node S V) (s : S)
            (serialize : Outcome (StructuredDocument V) -> string),
        (forall t, In t (tokens root) -> readOnly t) ->
        exec (synthesize root) s = s
        /\ synthesize root (exec (synthesize root) s) = synthesize root s
        /\ serialize (fst (synthesize root (exec (synthesize root) s)))
           = serialize (fst (synthesize root s)))
    /\ (forall (scope : Construct) (id : string)
               (props : StepScalingAction.StepScalingActionProps)
               (this s : StepScalingAction.StepScalingAction),
           let root :=
             Trees.actionTree this
               (snd (StepScalingAction.construct scope id props)) in
           synthesize root (exec (synthesize root) s) = synthesize root s)
    /\ (forall this s : TopicBase.TopicBase,
           synthesize (Trees.topicTree this)
                      (exec (synthesize (Trees.topicTree this)) s)
           = synthesize (Trees.topicTree this) s)
    /\ (forall (C D : Type) (n1 : ConstructNode C) (n2 : ConstructNode D),
           path n1 = path n2 -> uniqueId n1 = uniqueId n2)
    /\ (forall (id : string) (props : StepScalingAction.StepScalingActionProps)
               (scope1 scope1' scope2 scope2' : Construct)
               (this1 this2 : StepScalingAction.StepScalingAction)
               (resource1 resource2 : StepScalingAction.CfnScalingPolicy),
           StepScalingAction.new id props scope1 = (inr (this1, resource1), scope1') ->
           StepScalingAction.new id props scope2 = (inr (this2, resource2), scope2') ->
           path scope1 = path scope2 ->
           (StepScalingAction.policyName props = None
            \/ StepScalingAction.policyName props = Some EmptyString ->
            StepScalingAction.cfnPolicyName resource1
            = uniqueId (StepScalingAction.node this1))
           /\ StepScalingAction.cfnPolicyName resource1
              = StepScalingAction.cfnPolicyName resource2).
Proof.
  intros cdk.
  assert (Hgen : forall (S V : Type) (root : Node S V) (s : S),
             (forall t, In t (tokens root) -> readOnly t) ->
             exec (synthesize root) s = s).
  { intros S V root s R. apply synthesizeNode_readOnly, R. }
  split; [|split; [|split; [|split]]].
  - intros S V root s serialize R. rewrite (Hgen S V root s R). auto.
  - intros scope id props this s root.
    rewrite (Hgen _ _ root s (actionTree_readOnly scope id props this)).
    reflexivity.
  - intros this s.
    rewrite (Hgen _ _ _ s (topicTree_readOnly this)). reflexivity.
  - intros C D n1 n2 E. unfold uniqueId. rewrite E. reflexivity.
  - intros id props scope1 scope1' scope2 scope2' this1 this2 resource1 resource2
           E1 E2 Ep.
    destruct (AdjustmentFacts.new_action_inv _ _ _ _ _ _ E1) as (_ & P1 & N1 & _).
    destruct (AdjustmentFacts.new_action_inv _ _ _ _ _ _ E2) as (_ & P2 & N2 & _).
    split.
    + intros [Hno|Hno]; rewrite N1, Hno; unfold uniqueId; rewrite P1; reflexivity.
    + rewrite N1, N2, Ep. reflexivity.
Qed.

Import Examples.

Example scaling_synthesized :
  fst (@synthesize exampleCdk _ _
         (mkTree "Stack" None [Trees.actionTree scaling scalingResource])
         (exec (attemptEach StepScalingAction.addAdjustment [from10; upTo10]) scaling))
  = inr [("StackScalingResource",
          Build_ResourceDescription
            "AWS::ApplicationAutoScaling::ScalingPolicy"
            (@Trees.Build_ScalingPolicyProperties exampleCdk
               "StackScaling" "StepScaling" "target" None None None None
               [StepScalingAction.stepOf from10; StepScalingAction.stepOf upTo10]))].
Proof. reflexivity. Qed.

(** C8 on the step scaling action of the examples. *)
Lemma synthesis_is_deterministic_witness :
  @synthesize exampleCdk _ _ (Trees.actionTree scaling scalingResource)
    (exec (@synthesize exampleCdk _ _ (Trees.actionTree scaling scalingResource))
          (exec (StepScalingAction.addAdjustment from10) scaling))
  = @synthesize exampleCdk _ _ (Trees.actionTree scaling scalingResource)
      (exec (StepScalingAction.addAdjustment from10) scaling)
  /\ @uniqueId exampleCdk _ exampleStack = @uniqueId exampleCdk _ stackWithScaling
  /\ StepScalingAction.cfnPolicyName scalingResource
     = @uniqueId exampleCdk _ (StepScalingAction.node scaling).
Proof.
  destruct (synthesis_is_deterministic exampleCdk) as (Hgen & _ & _ & Hpath & Hname).
  split; [|split; [exact (Hpath _ _ exampleStack stackWithScaling eq_refl)|]].
  - destruct (Hgen _ _ (Trees.actionTree scaling scalingResource)
                   (exec (StepScalingAction.addAdjustment from10) scaling)
                   (fun _ => EmptyString)
                   (@actionTree_readOnly exampleCdk exampleStack "Scaling"
                                         scalingProps scaling))
      as (_ & Hsame & _).
    exact Hsame.
  - destruct (Hname "Scaling" scalingProps exampleStack stackWithScaling
                    exampleStack stackWithScaling scaling scaling
                    scalingResource scalingResource eq_refl eq_refl eq_refl)
      as (Hfallback & _).
    apply Hfallback. left. reflexivity.
Defined.

End SynthesisFacts.

(* ================================================================== *)
(** * Further properties *)

(** ** Calls on an alarm, in any order *)

Module AlarmCallFacts.
Section WithCdk.
Context `{MetricApi}.
Import Alarm AlarmCalls.

Lemma grown_after_call (this this1 : Alarm) (before : option (list string))
      (actions : list IAlarmAction) (calls : list (list IAlarmAction)) :
  boundArns this1 = boundArns this ->
  grown this1 (Some (initialised before ++ boundArns this actions)) calls
  = grown this before (actions :: calls).
Proof.
  intros E. unfold grown. destruct calls as [|c calls].
  - simpl. rewrite app_nil_r. reflexivity.
  - rewrite E. cbn [initialised flat_map]. rewrite <- app_assoc. reflexivity.
Qed.

(** X1.  Any calls of the three add methods, in any order, return, leave
    the node, the ARN, the name and the metric of the alarm alone, and
    leave each action list as the calls of its own method alone would:
    the list it was, followed by the bound ARNs of those calls in call
    order. *)
Theorem each_list_follows_its_own_calls :
  forall (cs : list AlarmCall) (this : Alarm),
    forEach call cs this
    = (inr tt,
       mkAlarm (node this) (alarmArn this) (alarmName this) (alarmMetric this)
               (grown this (alarmActionArns this) (alarmCalls cs))
               (grown this (insufficientDataActionArns this) (insufficientDataCalls cs))
               (grown this (okActionArns this) (okCalls cs))).
Proof.
  induction cs as [|c cs IH]; intros this.
  - destruct this; reflexivity.
  - destruct c as [actions|actions|actions].
    + rewrite (forEach_cons_returns call (AddAlarmAction actions) cs this _ tt eq_refl).
      rewrite IH. cbn [node alarmArn alarmName alarmMetric alarmActionArns
                       insufficientDataActionArns okActionArns].
      cbn [alarmCalls insufficientDataCalls okCalls flat_map app].
      f_equal. f_equal; try reflexivity. apply grown_after_call. reflexivity.
    + rewrite (forEach_cons_returns call (AddInsufficientDataAction actions) cs this _ tt
                 eq_refl).
      rewrite IH. cbn [node alarmArn alarmName alarmMetric alarmActionArns
                       insufficientDataActionArns okActionArns].
      cbn [alarmCalls insufficientDataCalls okCalls flat_map app].
      f_equal. f_equal; try reflexivity. apply grown_after_call. reflexivity.
    + rewrite (forEach_cons_returns call (AddOkAction actions) cs this _ tt eq_refl).
      rewrite IH. cbn [node alarmArn alarmName alarmMetric alarmActionArns
                       insufficientDataActionArns okActionArns].
      cbn [alarmCalls insufficientDataCalls okCalls flat_map app].
      f_equal. f_equal; try reflexivity. apply grown_after_call. reflexivity.
Qed.

Lemma grown_None (this : Alarm) (calls : list (list IAlarmAction)) :
  grown this None calls = None <-> calls = [].
Proof. destruct calls; simpl; split; intros E; congruence. Qed.

(** X2.  On a new alarm, after any calls of the add methods, an action
    list is still undefined exactly when its own method was never called,
    whatever was passed to the others. *)
Theorem list_absent_iff_never_called :
  forall (scope : Construct) (id : string) (props : AlarmProps) (cs : list AlarmCall),
    (alarmActionArns (exec (forEach call cs) (fst (construct scope id props))) = None
     <-> alarmCalls cs = [])
    /\ (insufficientDataActionArns
          (exec (forEach call cs) (fst (construct scope id props))) = None
        <-> insufficientDataCalls cs = [])
    /\ (okActionArns (exec (forEach call cs) (fst (construct scope id props))) = None
        <-> okCalls cs = []).
Proof.
  intros scope id props cs. unfold exec.
  rewrite each_list_follows_its_own_calls. simpl.
  repeat split; try apply grown_None; intros E; apply grown_None; exact E.
Qed.


End WithCdk.
End AlarmCallFacts.

(** ** A run of [addAdjustment] calls that is not caught *)

Module AdjustmentRunFacts.
Section WithCdk.
Context `{Cdk}.
Import StepScalingAction.

(** X4.  Calls of [addAdjustment] in a row, not caught: the run returns
    if every tier has a bound and throws at the first tier without one;
    either way the action holds the entries it had and then those of the
    tiers before the first tier without a bound, and nothing of the
    tiers after it. *)
Theorem run_stops_at_first_unbounded_tier :
  forall (tiers : list AdjustmentTier) (this : StepScalingAction),
    forEach addAdjustment tiers this
    = (if forallb hasBound tiers then inr tt else inl InvalidTierError,
       mkAction (node this) (scalingPolicyArn this)
                (adjustments this ++ map stepOf (takeWhile hasBound tiers))).
Proof.
  induction tiers as [|tier tiers IH]; intros this.
  - simpl. rewrite app_nil_r. destruct this; reflexivity.
  - pose proof (AdjustmentFacts.addAdjustment_run tier this) as R.
    cbn [forallb takeWhile]. destruct (hasBound tier).
    + rewrite (forEach_cons_returns addAdjustment tier tiers this _ tt R), IH.
      simpl. rewrite <- app_assoc. reflexivity.
    + cbn [forEach]. unfold mbind. rewrite R. simpl. rewrite app_nil_r.
      destruct this; reflexivity.
Qed.

End WithCdk.
End AdjustmentRunFacts.

(** ** The metric and the annotation of an alarm *)

Module AlarmMetricFacts.
Section WithCdk.
Context `{MetricApi}.
Import Alarm.

(** X5.  In the metric part of the resource the dimensions are left out
    exactly when the metric has none, and are never an empty list; of
    [statistic] and [extendedStatistic] exactly one is set, and an
    extended statistic starts with ['p']. *)
Theorem metricJson_optional_fields :
  forall m : Metric,
    (jsonDimensions (metricJson m) = None <-> dimensionsAsList m = [])
    /\ jsonDimensions (metricJson m) <> Some []
    /\ (jsonStatistic (metricJson m) = None
        <-> jsonExtendedStatistic (metricJson m) <> None)
    /\ match jsonExtendedStatistic (metricJson m) with
       | Some extended => prefix "p" extended = true
       | None => True
       end.
Proof.
  intros m. unfold metricJson. simpl.
  split; [|split; [|split]].
  - destruct (dimensionsAsList m) as [|d ds]; split; intros E;
      try reflexivity; discriminate E.
  - destruct (dimensionsAsList m) as [|d ds]; intros E; discriminate E.
  - destruct (parseStatistic (statistic m)) as [simple|percentile]; split; intros E.
    + discriminate E.
    + contradiction E. reflexivity.
    + discriminate.
    + reflexivity.
  - destruct (parseStatistic (statistic m)) as [simple|percentile]; [exact I|].
    simpl. destruct (numberToString percentile); reflexivity.
Qed.

End WithCdk.

Section WithNumbers.
Context {cdk : Cdk} {api : @MetricApi cdk} {ops : @NumberOps cdk}.
Import Alarm AlarmAnnotation.

(** X6.  The annotation cannot tell a less-than-or-equal alarm from a
    greater-than-or-equal one: with [LessThanOrEqualToThreshold] the
    label and the value are those of [GreaterThanOrEqualToThreshold],
    which is also what no operator at all gives; the other two operators
    have symbols of their own. *)
Theorem annotation_of_less_or_equal :
  forall (metricLabel : option string) (props : AlarmProps),
    annotation metricLabel (withOperator (Some LessThanOrEqualToThreshold) props)
    = annotation metricLabel (withOperator (Some GreaterThanOrEqualToThreshold) props)
    /\ annotation metricLabel (withOperator None props)
       = annotation metricLabel (withOperator (Some GreaterThanOrEqualToThreshold) props)
    /\ (forall op1 op2 : ComparisonOperator,
           OPERATOR_SYMBOLS op1 = OPERATOR_SYMBOLS op2 ->
           op1 = op2
           \/ (op1 = LessThanOrEqualToThreshold /\ op2 = GreaterThanOrEqualToThreshold)
           \/ (op1 = GreaterThanOrEqualToThreshold /\ op2 = LessThanOrEqualToThreshold)).
Proof.
  intros metricLabel props. split; [reflexivity|]. split; [reflexivity|].
  intros [] []; simpl; intros E; try discriminate E; auto.
Qed.

End WithNumbers.
End AlarmMetricFacts.

(** ** The subscribe methods of a topic *)

Module SubscribeFacts.
Import TopicBase.

Lemma onNode_newSubscription (name : string) (props : SubscriptionProps) (this : TopicBase) :
  onNode (newSubscription name props) this
  = match tryFindChild (node this) name with
    | None =>
        (inr (mkSubscription name props),
         mkTopic
           (mkNode (id (node this)) (path (node this))
                   (children (node this)
                    ++ [(name, SubscriptionChild (mkSubscription name props))]))
           (topicArn this) (topicName this) (autoCreatePolicy this) (policy this))
    | Some _ => (inl (DuplicateIdError name), this)
    end.
Proof.
  unfold onNode. destruct (tryFindChild (node this) name) as [c|] eqn:E.
  - rewrite (TopicFacts.newSubscription_duplicate name props (node this) c E).
    destruct this as [[i p cs] a n auto pol]. reflexivity.
  - rewrite (TopicFacts.newSubscription_fresh name props (node this) E). reflexivity.
Qed.

Lemma subscribeUrl_accepted (name url : string) (raw : option bool) (this : TopicBase) :
  prefix "http://" url = true \/ prefix "https://" url = true ->
  subscribeUrl name url raw this
  = onNode (newSubscription name
              (mkSubscriptionProps (topicArn this) url
                 (if prefix "https:" url then Https else Http) raw)) this.
Proof.
  intros Hacc. unfold subscribeUrl.
  destruct Hacc as [E|E]; rewrite E; simpl; [reflexivity|].
  rewrite andb_false_r. reflexivity.
Qed.

Lemma subscribeUrl_rejected (name url : string) (raw : option bool) (this : TopicBase) :
  prefix "http://" url = false -> prefix "https://" url = false ->
  subscribeUrl name url raw this = (inl invalidUrl, this).
Proof. intros E1 E2. unfold subscribeUrl. rewrite E1, E2. reflexivity. Qed.

(** X7.  A subscription [subscribeUrl] returns has the URL as its
    endpoint, the topic's ARN as its topic and the name given; its
    protocol is [Https] exactly when the URL starts with ['https://'] and
    [Http] exactly when it starts with ['http://'], although the code
    tests for ['https:'] only. *)
Theorem subscribeUrl_protocol_is_the_scheme :
  forall (name url : string) (raw : option bool) (this this' : TopicBase)
         (sub : Subscription),
    subscribeUrl name url raw this = (inr sub, this') ->
    (protocol (subscriptionProps sub) = Https <-> prefix "https://" url = true)
    /\ (protocol (subscriptionProps sub) = Http <-> prefix "http://" url = true)
    /\ endpoint (subscriptionProps sub) = url
    /\ topic (subscriptionProps sub) = topicArn this
    /\ rawMessageDelivery (subscriptionProps sub) = raw
    /\ subscriptionName sub = name.
Proof.
  intros name url raw this this' sub E.
  assert (Hacc : prefix "http://" url = true \/ prefix "https://" url = true).
  { destruct (prefix "http://" url) eqn:E1; [auto|].
    destruct (prefix "https://" url) eqn:E2; [auto|].
    rewrite (subscribeUrl_rejected name url raw this E1 E2) in E. discriminate E. }
  rewrite (subscribeUrl_accepted name url raw this Hacc), onNode_newSubscription in E.
  destruct (tryFindChild (node this) name); [discriminate E|].
  injection E as <- _. simpl.
  rewrite (TopicFacts.accepted_https url Hacc).
  destruct (prefix "https://" url) eqn:E2.
  - pose proof (TopicFacts.https_is_not_http url
                  (TopicFacts.https_colon_slashes url E2)) as E1.
    rewrite E1. repeat split; auto; discriminate.
  - destruct Hacc as [E1|E1]; [|discriminate E1].
    rewrite E1. repeat split; auto; discriminate.
Qed.

(** X8.  Under a name a child of the topic already has, [subscribe],
    [subscribeEmail] and [subscribeUrl] fail with the duplicate-id error
    and leave the topic as it was; [subscribeUrl] looks at the URL first,
    so that a URL it does not accept gives the URL error whether the name
    is taken or not. *)
Theorem subscribing_under_a_taken_name :
  forall (name : string) (this : TopicBase) (taken : Child),
    tryFindChild (node this) name = Some taken ->
    (forall (target : string) (protocol : SubscriptionProtocol) (raw : option bool),
        subscribe name target protocol raw this = (inl (DuplicateIdError name), this))
    /\ (forall (emailAddress : string) (options : option EmailSubscriptionOptions),
           subscribeEmail name emailAddress options this
           = (inl (DuplicateIdError name), this))
    /\ (forall (url : string) (raw : option bool),
           subscribeUrl name url raw this
           = (inl (if prefix "http://" url || prefix "https://" url
                   then DuplicateIdError name else invalidUrl), this)).
Proof.
  intros name this taken E. split; [|split].
  - intros target protocol raw. unfold subscribe.
    rewrite onNode_newSubscription, E. reflexivity.
  - intros emailAddress options. unfold subscribeEmail.
    rewrite onNode_newSubscription, E. reflexivity.
  - intros url raw.
    destruct (prefix "http://" url) eqn:E1; simpl.
    + rewrite (subscribeUrl_accepted name url raw this (or_introl E1)).
      rewrite onNode_newSubscription, E. reflexivity.
    + destruct (prefix "https://" url) eqn:E2.
      * rewrite (subscribeUrl_accepted name url raw this (or_intror E2)).
        rewrite onNode_newSubscription, E. reflexivity.
      * apply subscribeUrl_rejected; assumption.
Qed.

(** X9.  A subscription [subscribeEmail] returns has the address as its
    endpoint and no raw message delivery setting; its protocol is
    [EmailJson] exactly when options are given with [json] true, and
    [Email] in every other case. *)
Theorem subscribeEmail_protocol :
  forall (name emailAddress : string) (options : option EmailSubscriptionOptions)
         (this this' : TopicBase) (sub : Subscription),
    subscribeEmail name emailAddress options this = (inr sub, this') ->
    (protocol (subscriptionProps sub) = EmailJson
     <-> exists o, options = Some o /\ json o = Some true)
    /\ (protocol (subscriptionProps sub) = EmailJson
        \/ protocol (subscriptionProps sub) = Email)
    /\ endpoint (subscriptionProps sub) = emailAddress
    /\ topic (subscriptionProps sub) = topicArn this
    /\ rawMessageDelivery (subscriptionProps sub) = None
    /\ subscriptionName sub = name.
Proof.
  intros name emailAddress options this this' sub E.
  unfold subscribeEmail in E. rewrite onNode_newSubscription in E.
  destruct (tryFindChild (node this) name); [discriminate E|].
  injection E as <- _. simpl.
  destruct options as [[[[|]|]]|]; simpl; repeat split; auto;
    try discriminate; try (intros (o & Eo & Ej); try discriminate Eo;
                           injection Eo as <-; discriminate Ej).
  intros _. eexists. split; reflexivity.
Qed.

End SubscribeFacts.

(** ** Calls on a topic, in any order *)

Module TopicCallFacts.
Import TopicBase TopicCalls.

Lemma exec_then_ret {S A : Type} (m : M S A) (s : S) :
  exec (m ;;; ret tt)%method s = exec m s.
Proof. unfold exec, mbind. destruct (m s) as [[e|a] s']; reflexivity. Qed.

Lemma exec_attemptEach_cons {S A X : Type} (f : X -> M S A) (x : X) (xs : list X) (s : S) :
  exec (attemptEach f (x :: xs)) s = exec (attemptEach f xs) (exec (f x) s).
Proof. reflexivity. Qed.

Lemma exec_subscription (name : string) (props : SubscriptionProps) (this : TopicBase) :
  topic props = topicArn this ->
  Step this (exec (onNode (newSubscription name props)) this).
Proof.
  intros E. unfold exec. rewrite SubscribeFacts.onNode_newSubscription.
  destruct (tryFindChild (node this) name) eqn:Ef; simpl.
  - apply step_nothing.
  - apply step_subscription; assumption.
Qed.

(** Whatever the call, it does to the topic one of the four things. *)
Lemma call_step (c : TopicCall) (this : TopicBase) : Step this (exec (call c) this).
Proof.
  destruct c as [name target protocol raw|name address options|name url raw|st];
    cbn [call]; rewrite ?exec_then_ret.
  - apply exec_subscription. reflexivity.
  - apply exec_subscription. reflexivity.
  - destruct (prefix "http://" url) eqn:E1.
    + unfold exec.
      rewrite (SubscribeFacts.subscribeUrl_accepted name url raw this (or_introl E1)).
      apply exec_subscription. reflexivity.
    + destruct (prefix "https://" url) eqn:E2.
      * unfold exec.
        rewrite (SubscribeFacts.subscribeUrl_accepted name url raw this (or_intror E2)).
        apply exec_subscription. reflexivity.
      * unfold exec. rewrite (SubscribeFacts.subscribeUrl_rejected name url raw this E1 E2).
        apply step_nothing.
  - unfold exec. destruct (policy this) as [p|] eqn:Ep.
    + rewrite (TopicFacts.addToResourcePolicy_reuses st this p Ep).
      apply step_statement. exact Ep.
    + destruct (autoCreatePolicy this) eqn:Ea.
      * destruct (tryFindChild (node this) "Policy") as [c|] eqn:Ef.
        -- rewrite (TopicFacts.addToResourcePolicy_clash st this c Ea Ep Ef).
           apply step_nothing.
        -- rewrite (TopicFacts.addToResourcePolicy_creates st this Ea Ep Ef).
           rewrite <- Ea at 1. apply step_policy; assumption.
      * rewrite (TopicFacts.addToResourcePolicy_imported st this Ea Ep).
        apply step_nothing.
Qed.

Lemma lookupChild_None (C : Type) (name : string) (cs : list (string * C)) :
  lookupChild name cs = None -> ~ In name (keys cs).
Proof.
  induction cs as [|[k c] cs IH]; simpl; [tauto|].
  destruct (String.eqb k name) eqn:E; [discriminate|].
  intros Hn [Hk|Hin]; [|exact (IH Hn Hin)].
  subst k. rewrite String.eqb_refl in E. discriminate E.
Qed.

Lemma keys_app (C : Type) (l1 l2 : list (string * C)) : keys (l1 ++ l2) = keys l1 ++ keys l2.
Proof. unfold keys. apply map_app. Qed.

Lemma NoDup_added (C : Type) (name : string) (c : C) (cs : list (string * C)) :
  lookupChild name cs = None -> NoDup (keys cs) -> NoDup (keys (cs ++ [(name, c)])).
Proof.
  intros Hn D. rewrite keys_app. simpl.
  apply NoDup_app; [exact D|repeat constructor; simpl; tauto|].
  intros k Hk [E|[]]. subst k. exact (lookupChild_None C name cs Hn Hk).
Qed.

(** What a step keeps and what it may add. *)
Lemma step_keeps (this this' : TopicBase) :
  Step this this' ->
  (topicArn this' = topicArn this
   /\ topicName this' = topicName this
   /\ autoCreatePolicy this' = autoCreatePolicy this
   /\ id (node this') = id (node this)
   /\ path (node this') = path (node this))
  /\ (exists added : list (string * Child),
         children (node this') = children (node this) ++ added
         /\ Forall (fun entry => isSubscriptionTo (topicArn this) entry
                                 \/ entry = ("Policy", PolicyChild)) added)
  /\ (NoDup (keys (children (node this))) -> NoDup (keys (children (node this')))).
Proof.
  intros [|name props Hf Ht|st Ha Hp Hf|st p Hp]; simpl.
  - split; [auto 6|]. split; [|auto]. exists []. rewrite app_nil_r. auto.
  - split; [auto 6|]. split; [|apply NoDup_added; exact Hf].
    eexists. split; [reflexivity|]. constructor; [|constructor].
    left. exists props. auto.
  - split; [auto 6|]. split; [|apply NoDup_added; exact Hf].
    eexists. split; [reflexivity|]. constructor; [|constructor].
    right. reflexivity.
  - split; [auto 6|]. split; [|auto]. exists []. rewrite app_nil_r. auto.
Qed.

(** X10.  Whatever calls are made on a topic, in any order and whether
    they fail or not, its ARN, its name, its [autoCreatePolicy] flag and
    the id and path of its node stay what they were; its children are the
    children it had, in place, followed by children that are subscriptions
    to this very topic under their own name or the policy under
    ['Policy']; and if the ids of its children were distinct they still
    are. *)
Theorem calls_only_add_children :
  forall (cs : list TopicCall) (this : TopicBase),
    (topicArn (exec (attemptEach call cs) this) = topicArn this
     /\ topicName (exec (attemptEach call cs) this) = topicName this
     /\ autoCreatePolicy (exec (attemptEach call cs) this) = autoCreatePolicy this
     /\ id (node (exec (attemptEach call cs) this)) = id (node this)
     /\ path (node (exec (attemptEach call cs) this)) = path (node this))
    /\ (exists added : list (string * Child),
           children (node (exec (attemptEach call cs) this))
           = children (node this) ++ added
           /\ Forall (fun entry => isSubscriptionTo (topicArn this) entry
                                   \/ entry = ("Policy", PolicyChild)) added)
    /\ (NoDup (keys (children (node this))) ->
        NoDup (keys (children (node (exec (attemptEach call cs) this))))).
Proof.
  induction cs as [|c cs IH]; intros this.
  - split; [auto 6|]. split; [|auto]. exists []. rewrite app_nil_r. auto.
  - rewrite exec_attemptEach_cons.
    destruct (step_keeps this _ (call_step c this))
      as ((K1 & K2 & K3 & K4 & K5) & (added1 & Ec1 & F1) & D1).
    destruct (IH (exec (call c) this))
      as ((J1 & J2 & J3 & J4 & J5) & (added2 & Ec2 & F2) & D2).
    split; [repeat split; congruence|]. split; [|auto].
    exists (added1 ++ added2). split.
    + rewrite Ec2, Ec1, app_assoc. reflexivity.
    + apply Forall_app. split; [exact F1|]. rewrite K1 in F2. exact F2.
Qed.

Lemma step_imported (this this' : TopicBase) :
  Step this this' ->
  autoCreatePolicy this = false -> policy this = None ->
  policy this' = None
  /\ exists added : list (string * Child),
       children (node this') = children (node this) ++ added
       /\ Forall (isSubscriptionTo (topicArn this)) added.
Proof.
  intros [|name props Hf Ht|st Ha Hp Hf|st p Hp] Ea Ep; simpl.
  - split; [exact Ep|]. exists []. rewrite app_nil_r. auto.
  - split; [exact Ep|]. eexists. split; [reflexivity|].
    constructor; [|constructor]. exists props. auto.
  - congruence.
  - congruence.
Qed.

(** X11.  On an imported topic ([autoCreatePolicy] false, no policy) no
    calls, in whatever number and order, ever give the topic a policy or a
    policy child: the policy stays undefined and every child added is a
    subscription to the topic, so that the policy children are those the
    node had before. *)
Theorem imported_topic_never_gets_a_policy :
  forall (cs : list TopicCall) (this : TopicBase),
    autoCreatePolicy this = false ->
    policy this = None ->
    policy (exec (attemptEach call cs) this) = None
    /\ (exists added : list (string * Child),
           children (node (exec (attemptEach call cs) this))
           = children (node this) ++ added
           /\ Forall (isSubscriptionTo (topicArn this)) added)
    /\ filter isPolicyChild (children (node (exec (attemptEach call cs) this)))
       = filter isPolicyChild (children (node this)).
Proof.
  assert (Hmain : forall (cs : list TopicCall) (this : TopicBase),
             autoCreatePolicy this = false ->
             policy this = None ->
             policy (exec (attemptEach call cs) this) = None
             /\ exists added : list (string * Child),
                  children (node (exec (attemptEach call cs) this))
                  = children (node this) ++ added
                  /\ Forall (isSubscriptionTo (topicArn this)) added).
  { induction cs as [|c cs IH]; intros this Ea Ep.
    - split; [exact Ep|]. exists []. rewrite app_nil_r. auto.
    - rewrite exec_attemptEach_cons.
      destruct (step_imported this _ (call_step c this) Ea Ep)
        as (Ep1 & added1 & Ec1 & F1).
      destruct (step_keeps this _ (call_step c this)) as ((K1 & _ & K3 & _) & _).
      destruct (IH (exec (call c) this)) as (Ep2 & added2 & Ec2 & F2);
        [congruence|exact Ep1|].
      split; [exact Ep2|]. exists (added1 ++ added2). split.
      + rewrite Ec2, Ec1, app_assoc. reflexivity.
      + apply Forall_app. split; [exact F1|]. rewrite K1 in F2. exact F2. }
  intros cs this Ea Ep. destruct (Hmain cs this Ea Ep) as (Hp & added & Ec & F).
  split; [exact Hp|]. split; [exists added; auto|].
  rewrite Ec, filter_app.
  assert (Hnone : filter isPolicyChild added = []).
  { clear Ec. induction added as [|[k c] added IHa]; [reflexivity|].
    inversion F as [|? ? (props & Hs & _) F']. subst. simpl in Hs. subst c.
    simpl. exact (IHa F'). }
  rewrite Hnone, app_nil_r. reflexivity.
Qed.

Lemma call_with_policy (c : TopicCall) (this : TopicBase) (p : TopicPolicy) :
  policy this = Some p ->
  policy (exec (call c) this)
  = Some (mkPolicy (topics p) (document p ++ statementsOf [c])).
Proof.
  intros Ep.
  assert (Hsame : forall (A : Type) (m : M Construct A),
             policy (exec (onNode m) this) = Some (mkPolicy (topics p) (document p ++ []))).
  { intros A m. destruct (TopicFacts.onNode_keeps_policy m this) as [_ ->].
    rewrite Ep, app_nil_r. destruct p; reflexivity. }
  destruct c as [name target protocol raw|name address options|name url raw|st];
    cbn [call statementsOf flat_map app]; rewrite ?exec_then_ret.
  - apply Hsame.
  - apply Hsame.
  - unfold exec, subscribeUrl.
    destruct (negb (prefix "http://" url) && negb (prefix "https://" url)).
    + simpl. rewrite Ep, app_nil_r. destruct p; reflexivity.
    + apply Hsame.
  - unfold exec. rewrite (TopicFacts.addToResourcePolicy_reuses st this p Ep).
    reflexivity.
Qed.

(** X12.  Once a topic has its policy, any calls, in any order and
    whether they fail or not, leave it with the same policy construct,
    whose document is the document it was followed by the statements of
    the [addToResourcePolicy] calls in call order: no statement is
    dropped, merged or moved. *)
Theorem policy_document_grows_in_call_order :
  forall (cs : list TopicCall) (this : TopicBase) (p : TopicPolicy),
    policy this = Some p ->
    policy (exec (attemptEach call cs) this)
    = Some (mkPolicy (topics p) (document p ++ statementsOf cs)).
Proof.
  induction cs as [|c cs IH]; intros this p Ep.
  - change (exec (attemptEach call []) this) with this.
    cbn [statementsOf flat_map]. rewrite Ep, app_nil_r. destruct p; reflexivity.
  - rewrite exec_attemptEach_cons.
    rewrite (IH _ _ (call_with_policy c this p Ep)).
    cbn [topics document statementsOf flat_map]. rewrite app_nil_r, <- app_assoc.
    reflexivity.
Qed.

Lemma step_inStep (this this' : TopicBase) : Step this this' -> inStep this -> inStep this'.
Proof.
  unfold inStep.
  intros [|name props Hf Ht|st Ha Hp Hf|st p Hp]; simpl; intros Hin.
  - exact Hin.
  - unfold tryFindChild in *. simpl. rewrite lookupChild_app.
    destruct (policy this).
    + rewrite Hin. reflexivity.
    + destruct (lookupChild "Policy" (children (node this))) as [c|]; [exact Hin|].
      simpl. destruct (String.eqb name "Policy"); discriminate.
  - unfold tryFindChild in *. simpl. rewrite lookupChild_app, Hf. reflexivity.
  - rewrite Hp in Hin. exact Hin.
Qed.

(** X13.  The policy field and the child ['Policy'] stay in step under
    any calls: if the topic has a policy exactly when its child ['Policy']
    is the policy construct, it still does afterwards; a topic without
    policy and without a child ['Policy'] starts that way. *)
Theorem policy_field_and_child_stay_in_step :
  forall (cs : list TopicCall) (this : TopicBase),
    (inStep this -> inStep (exec (attemptEach call cs) this))
    /\ (policy this = None -> tryFindChild (node this) "Policy" = None ->
        inStep (exec (attemptEach call cs) this)).
Proof.
  assert (Hmain : forall (cs : list TopicCall) (this : TopicBase),
             inStep this -> inStep (exec (attemptEach call cs) this)).
  { induction cs as [|c cs IH]; intros this Hin; [exact Hin|].
    rewrite exec_attemptEach_cons.
    apply IH, (step_inStep this _ (call_step c this)), Hin. }
  intros cs this. split; [apply Hmain|].
  intros Ep Ef. apply Hmain. unfold inStep. rewrite Ep, Ef. discriminate.
Qed.

End TopicCallFacts.

(** ** Subscribing a queue *)

Module SubscribeQueueFacts.
Import TopicBase.

(** X14.  [subscribeQueue] refuses a queue that is not a construct and
    leaves it as it was.  When it returns, the queue is a construct that
    had no child [<topic id>Subscription]; the subscription returned has
    that name, the queue's ARN as endpoint, the protocol [Sqs], the
    topic's ARN as topic and the raw message delivery setting given, and
    it is that child of the queue now. *)
Theorem subscribeQueue_registers_under_the_queue :
  forall (this : TopicBase) (raw : option bool) (queue : sqs.IQueue),
    (sqs.isConstruct queue = false ->
     subscribeQueue this raw queue
     = (inl (Error "The supplied Queue object must be an instance of Construct"), queue))
    /\ (forall (queue' : sqs.IQueue) (sub : Subscription),
           subscribeQueue this raw queue = (inr sub, queue') ->
           sqs.isConstruct queue = true
           /\ tryFindChild (sqs.node queue) (id (node this) ++ "Subscription")%string = None
           /\ sub = mkSubscription (id (node this) ++ "Subscription")%string
                      (mkSubscriptionProps (topicArn this) (sqs.queueArn queue) Sqs raw)
           /\ tryFindChild (sqs.node queue') (id (node this) ++ "Subscription")%string
              = Some (SubscriptionChild sub)).
Proof.
  intros this raw queue. split.
  - intros E. unfold subscribeQueue. rewrite E. reflexivity.
  - intros queue' sub E.
    destruct (TopicFacts.subscribeQueue_returns this raw queue queue' sub E)
      as (_ & _ & Hsub & Hchild).
    unfold subscribeQueue in E.
    destruct (sqs.isConstruct queue); [|discriminate E]. simpl in E.
    destruct (tryFindChild (sqs.node queue) (id (node this) ++ "Subscription"));
      [discriminate E|].
    auto.
Qed.

(** X15.  The subscription is named after the id of the topic's node
    alone: once a topic is subscribed to a queue, any topic whose node has
    the same id, be it another topic with another ARN, is refused on that
    queue, which stays as it was. *)
Theorem topics_with_one_id_share_the_subscription_name :
  forall (this1 this2 : TopicBase) (raw1 raw2 : option bool)
         (queue queue' : sqs.IQueue) (sub : Subscription),
    id (node this1) = id (node this2) ->
    subscribeQueue this1 raw1 queue = (inr sub, queue') ->
    subscribeQueue this2 raw2 queue' = (inl (alreadySubscribed this2 queue'), queue').
Proof.
  intros this1 this2 raw1 raw2 queue queue' sub Hid E.
  destruct (TopicFacts.subscribeQueue_returns this1 raw1 queue queue' sub E)
    as (E1 & _ & _ & E2).
  unfold subscribeQueue. rewrite E1, <- Hid, E2. reflexivity.
Qed.

End SubscribeQueueFacts.

(** ** The parameters of a publish task *)

Module PublishKeyFacts.
Section WithFieldUtils.
Context `{FieldUtils}.
Import PublishToTopic.

Hypothesis distinct_rendered :
  forall o : list (string * JsValue any),
    NoDup (keys o) -> NoDup (keys (renderObject o)).
Hypothesis only_defined_rendered :
  forall (o : list (string * JsValue any)) (k : string),
    In k (keys (renderObject o)) ->
    exists (k0 : string) (v : JsValue any),
      In (k0, v) o /\ v <> JsUndefined /\ (k = k0 \/ k = (k0 ++ ".$")%string).
Hypothesis literal_rendered :
  forall (o : list (string * JsValue any)) (k s : string),
    NoDup (keys o) ->
    getKey k o = Some (JsString s) ->
    getKey k (renderObject o) = Some (JsString s).

(** X16.  With a [renderObject] that keeps keys distinct, renders only
    defined fields, under their name or their name followed by ['.$'],
    and leaves literal strings under their key: the parameters of the
    task have no key besides [TopicArn] and [Message],
    [MessageStructure], [Subject] and their ['.$'] forms; a subject given
    is the [Subject]; and without a subject there is neither [Subject]
    nor [Subject.$]. *)
Theorem parameters_of_the_task :
  forall this : PublishToTopic,
    (forall k : string,
        In k (keys (parameters (bind this))) ->
        In k ["TopicArn"; "Message"; "Message.$"; "MessageStructure";
              "MessageStructure.$"; "Subject"; "Subject.$"])
    /\ (forall s : string,
           subject (props this) = Some s ->
           getKey "Subject" (parameters (bind this)) = Some (JsString s))
    /\ (subject (props this) = None ->
        ~ In "Subject" (keys (parameters (bind this)))
        /\ ~ In "Subject.$" (keys (parameters (bind this)))).
Proof.
  intros this.
  pose proof (distinct_rendered _ (PublishFacts.fields_distinct this)) as D.
  assert (Hkeys : forall k, In k (keys (parameters (bind this))) ->
                            k = "TopicArn"
                            \/ exists (k0 : string) (v : JsValue any),
                                 In (k0, v) (fields this) /\ v <> JsUndefined
                                 /\ (k = k0 \/ k = (k0 ++ ".$")%string)).
  { intros k Hin. unfold bind in Hin. simpl in Hin. apply keys_spread in Hin.
    destruct Hin as [[<-|[]]|Hin]; [left; reflexivity|].
    right. exact (only_defined_rendered _ _ Hin). }
  split; [|split].
  - intros k Hin. destruct (Hkeys k Hin) as [->|(k0 & v & Hk & Hdef & Hname)];
      [simpl; auto|].
    unfold fields in Hk. simpl in Hk.
    destruct Hk as [E|[E|[E|[]]]]; injection E as <- _;
      destruct Hname as [->| ->]; simpl; auto 8.
  - intros s Es. unfold bind. simpl. rewrite (getKey_spread _ _ _ D).
    rewrite (literal_rendered (fields this) "Subject" s
               (PublishFacts.fields_distinct this)); [reflexivity|].
    unfold fields. simpl. rewrite Es. reflexivity.
  - intros Es.
    assert (Hno : forall k, k = "Subject" \/ k = "Subject.$" ->
                            ~ In k (keys (parameters (bind this)))).
    { intros k Hk Hin.
      destruct (Hkeys k Hin) as [->|(k0 & v & Hf & Hdef & Hname)];
        [destruct Hk; discriminate|].
      unfold fields in Hf. simpl in Hf. rewrite Es in Hf. simpl in Hf.
      destruct Hf as [E|[E|[E|[]]]]; injection E as <- <-;
        try (destruct Hk as [->| ->]; destruct Hname; discriminate).
      contradiction Hdef. reflexivity. }
    split; apply Hno; auto.
Qed.

End WithFieldUtils.
End PublishKeyFacts.

(** ** The helpers of the pipeline-actions test *)

Module PipelineTestFacts.
Section WithValues.
Context `{PipelineTest.TestValues}.
Import PipelineTest.

Lemma compareKeys_falls_through (actual expected : Value) (ks : list string) :
  compareKeys actual expected ks = Normal.
Proof.
  induction ks as [|k ks IH]; simpl; [reflexivity|].
  destruct (negb (isEqual (resolve (property actual k)) (resolve (property expected k))));
    exact IH.
Qed.

(** X17.  [_hasAction] never looks at what the expected configuration
    holds: it answers whether some action has the owner, provider and
    category given and, when a configuration is expected, has a
    configuration at all; any two expected configurations give the same
    answer. *)
Theorem _hasAction_ignores_the_configuration :
  forall (actions : list Action_) (owner_ provider_ category_ : string),
    (forall expected : option Value,
        _hasAction actions owner_ provider_ category_ expected
        = existsb (matches owner_ provider_ category_
                           (match expected with Some _ => true | None => false end))
                  actions)
    /\ (forall expected1 expected2 : Value,
           _hasAction actions owner_ provider_ category_ (Some expected1)
           = _hasAction actions owner_ provider_ category_ (Some expected2)).
Proof.
  intros actions owner_ provider_ category_.
  assert (Hall : forall expected : option Value,
             _hasAction actions owner_ provider_ category_ expected
             = existsb (matches owner_ provider_ category_
                                (match expected with Some _ => true | None => false end))
                       actions).
  { intros expected. induction actions as [|a actions IH]; [reflexivity|].
    cbn [_hasAction existsb]. unfold matches at 1.
    destruct (String.eqb (owner a) owner_); simpl; [|exact IH].
    destruct (String.eqb (provider a) provider_); simpl; [|exact IH].
    destruct (String.eqb (category a) category_); simpl; [|exact IH].
    destruct expected as [e|]; [|reflexivity].
    destruct (configuration a) as [actual|]; simpl; [|exact IH].
    rewrite compareKeys_falls_through. reflexivity. }
  split; [exact Hall|].
  intros expected1 expected2. rewrite !Hall. reflexivity.
Qed.

(** The test a statement passes to grant. *)
Lemma grantsAmong_exists (allowing : list PolicyStatementJson) (action resource : Value)
      (conditions : option Value) :
  grantsAmong allowing action resource conditions
  = existsb (fun s =>
               _isOrContains (Action s) action
               && _isOrContains (Resource s) resource
               && match conditions with
                  | Some c => negb (truthy c) || _isOrContains (Condition s) c
                  | None => true
                  end) allowing.
Proof.
  induction allowing as [|s rest IH]; [reflexivity|].
  cbn [grantsAmong existsb].
  destruct (_isOrContains (Action s) action); simpl; [|exact IH].
  destruct (_isOrContains (Resource s) resource); simpl; [|exact IH].
  destruct conditions as [c|]; [|reflexivity].
  destruct (truthy c); simpl; [|reflexivity].
  destruct (_isOrContains (Condition s) c); simpl; [reflexivity|exact IH].
Qed.

(** X18.  [_grantsPermission] grants nothing on no statements and nothing
    on statements that deny; it grants exactly when some statement allows,
    is or contains the action, is or contains the resource and, if
    conditions are given and truthy, is or contains them; so a permission
    granted stays granted when statements are put before or after. *)
Theorem _grantsPermission_only_grows :
  forall (statements more : list PolicyStatementJson) (action resource : Value)
         (conditions : option Value),
    _grantsPermission [] action resource conditions = false
    /\ _grantsPermission (filter (fun s => negb (isAllow s)) statements)
                         action resource conditions = false
    /\ _grantsPermission statements action resource conditions
       = existsb (fun s =>
                    isAllow s
                    && (_isOrContains (Action s) action
                        && _isOrContains (Resource s) resource
                        && match conditions with
                           | Some c => negb (truthy c) || _isOrContains (Condition s) c
                           | None => true
                           end)) statements
    /\ (_grantsPermission statements action resource conditions = true ->
        _grantsPermission (statements ++ more) action resource conditions = true
        /\ _grantsPermission (more ++ statements) action resource conditions = true).
Proof.
  intros statements more action resource conditions.
  unfold _grantsPermission. split; [reflexivity|]. split; [|split].
  - assert (E : filter isAllow (filter (fun s => negb (isAllow s)) statements) = []).
    { induction statements as [|s rest IH]; [reflexivity|].
      simpl. destruct (isAllow s) eqn:Es; simpl; [exact IH|].
      rewrite Es. exact IH. }
    rewrite E. reflexivity.
  - rewrite grantsAmong_exists.
    induction statements as [|s rest IH]; [reflexivity|].
    simpl. destruct (isAllow s); simpl; [rewrite IH; reflexivity|exact IH].
  - rewrite !filter_app, !grantsAmong_exists, !existsb_app. intros ->.
    split; [reflexivity|apply orb_true_r].
Qed.

End WithValues.
End PipelineTestFacts.

(** ** The further properties on the examples *)

Module FurtherWitnesses.
Import Examples MoreExamples.

Lemma annotation_of_less_or_equal_witness :
  Alarm.LessThanOrEqualToThreshold = Alarm.GreaterThanOrEqualToThreshold
  \/ (Alarm.LessThanOrEqualToThreshold = Alarm.LessThanOrEqualToThreshold
      /\ Alarm.GreaterThanOrEqualToThreshold = Alarm.GreaterThanOrEqualToThreshold)
  \/ (Alarm.LessThanOrEqualToThreshold = Alarm.GreaterThanOrEqualToThreshold
      /\ Alarm.GreaterThanOrEqualToThreshold = Alarm.LessThanOrEqualToThreshold).
Proof.
  destruct (@AlarmMetricFacts.annotation_of_less_or_equal
              exampleCdk exampleMetricApi exampleNumberOps None alarmProps)
    as (_ & _ & Hsymbols).
  apply Hsymbols. reflexivity.
Defined.

Example annotation_of_alarmA :
  AlarmAnnotation.label
    (@AlarmAnnotation.annotation exampleCdk exampleMetricApi exampleNumberOps
       None (AlarmAnnotation.withOperator (Some Alarm.LessThanOrEqualToThreshold)
                                          alarmProps))
  = "ApproximateNumberOfMessagesVisible >= 5 for 1 datapoints within 5 minutes".
Proof. reflexivity. Qed.

Lemma subscribeUrl_protocol_is_the_scheme_witness :
  protocol (subscriptionProps
              (mkSubscription "Hook"
                 (mkSubscriptionProps (TopicBase.topicArn liveTopic)
                                      "https://example.com/hook" Https None)))
  = Https
  <-> prefix "https://" "https://example.com/hook" = true.
Proof.
  destruct (SubscribeFacts.subscribeUrl_protocol_is_the_scheme
              "Hook" "https://example.com/hook" None liveTopic hookedTopic
              (mkSubscription "Hook"
                 (mkSubscriptionProps (TopicBase.topicArn liveTopic)
                                      "https://example.com/hook" Https None))
              eq_refl) as (Hs & _).
  exact Hs.
Defined.

Lemma subscribing_under_a_taken_name_witness :
  TopicBase.subscribe "Hook" "arn:endpoint" Sqs None hookedTopic
  = (inl (DuplicateIdError "Hook"), hookedTopic)
  /\ TopicBase.subscribeEmail "Hook" "ops@example.com" None hookedTopic
     = (inl (DuplicateIdError "Hook"), hookedTopic)
  /\ TopicBase.subscribeUrl "Hook" "http://example.com/other" None hookedTopic
     = (inl (DuplicateIdError "Hook"), hookedTopic)
  /\ TopicBase.subscribeUrl "Hook" "ftp://example.com" None hookedTopic
     = (inl TopicBase.invalidUrl, hookedTopic).
Proof.
  destruct (SubscribeFacts.subscribing_under_a_taken_name
              "Hook" hookedTopic
              (SubscriptionChild
                 (mkSubscription "Hook"
                    (mkSubscriptionProps (TopicBase.topicArn liveTopic)
                                         "https://example.com/hook" Https None)))
              eq_refl) as (H1 & H2 & H3).
  split; [apply H1|]. split; [apply H2|].
  split; [exact (H3 "http://example.com/other" None)|exact (H3 "ftp://example.com" None)].
Defined.

Lemma subscribeEmail_protocol_witness :
  protocol (mkSubscriptionProps (TopicBase.topicArn liveTopic) "ops@example.com"
                                EmailJson None) = EmailJson
  <-> exists o, Some jsonMail = Some o /\ TopicBase.json o = Some true.
Proof.
  destruct (SubscribeFacts.subscribeEmail_protocol
              "Mail" "ops@example.com" (Some jsonMail) liveTopic
              (exec (TopicBase.subscribeEmail "Mail" "ops@example.com" (Some jsonMail))
                    liveTopic)
              (mkSubscription "Mail"
                 (mkSubscriptionProps (TopicBase.topicArn liveTopic) "ops@example.com"
                                      EmailJson None))
              eq_refl) as (Hp & _).
  exact Hp.
Defined.

Example someCalls_on_the_live_topic :
  keys (children (TopicBase.node (exec (attemptEach TopicCalls.call someCalls) liveTopic)))
  = ["Resource"; "Policy"; "Hook"; "Mail"]
  /\ TopicBase.policy (exec (attemptEach TopicCalls.call someCalls) liveTopic)
     = Some (TopicBase.mkPolicy [TopicBase.topicArn liveTopic]
                                [allowPublish; allowSubscribe]).
Proof. split; reflexivity. Qed.

Lemma calls_only_add_children_witness :
  NoDup (keys (children (TopicBase.node
                           (exec (attemptEach TopicCalls.call someCalls) liveTopic)))).
Proof.
  destruct (TopicCallFacts.calls_only_add_children someCalls liveTopic) as (_ & _ & Hd).
  apply Hd. simpl. repeat constructor. simpl. tauto.
Defined.

Lemma imported_topic_never_gets_a_policy_witness :
  TopicBase.policy (exec (attemptEach TopicCalls.call someCalls) importedTopic) = None
  /\ filter TopicCalls.isPolicyChild
            (children (TopicBase.node
                         (exec (attemptEach TopicCalls.call someCalls) importedTopic)))
     = filter TopicCalls.isPolicyChild (children (TopicBase.node importedTopic)).
Proof.
  destruct (TopicCallFacts.imported_topic_never_gets_a_policy
              someCalls importedTopic eq_refl eq_refl) as (Hp & _ & Hc).
  split; [exact Hp|exact Hc].
Defined.

Lemma policy_document_grows_in_call_order_witness :
  TopicBase.policy (exec (attemptEach TopicCalls.call someCalls) topicWithPolicy)
  = Some (TopicBase.mkPolicy [TopicBase.topicArn liveTopic]
                             ([allowPublish] ++ TopicCalls.statementsOf someCalls)).
Proof.
  exact (TopicCallFacts.policy_document_grows_in_call_order
           someCalls topicWithPolicy
           (TopicBase.mkPolicy [TopicBase.topicArn liveTopic] [allowPublish]) eq_refl).
Defined.

Lemma policy_field_and_child_stay_in_step_witness :
  TopicCalls.inStep (exec (attemptEach TopicCalls.call someCalls) topicWithPolicy)
  /\ TopicCalls.inStep (exec (attemptEach TopicCalls.call someCalls) liveTopic).
Proof.
  destruct (TopicCallFacts.policy_field_and_child_stay_in_step someCalls topicWithPolicy)
    as (Hkept & _).
  destruct (TopicCallFacts.policy_field_and_child_stay_in_step someCalls liveTopic)
    as (_ & Hnew).
  split; [apply Hkept; reflexivity|apply Hnew; reflexivity].
Defined.

Lemma subscribeQueue_registers_under_the_queue_witness :
  TopicBase.subscribeQueue liveTopic None plainQueue
  = (inl (Error "The supplied Queue object must be an instance of Construct"), plainQueue)
  /\ tryFindChild (sqs.node (exec (TopicBase.subscribeQueue liveTopic None) liveQueue))
                  "TopicSubscription"
     = Some (SubscriptionChild
               (mkSubscription "TopicSubscription"
                  (mkSubscriptionProps (TopicBase.topicArn liveTopic)
                                       (sqs.queueArn liveQueue) Sqs None))).
Proof.
  destruct (SubscribeQueueFacts.subscribeQueue_registers_under_the_queue
              liveTopic None plainQueue) as (Hplain & _).
  destruct (SubscribeQueueFacts.subscribeQueue_registers_under_the_queue
              liveTopic None liveQueue) as (_ & Hlive).
  split; [apply Hplain; reflexivity|].
  destruct (Hlive (exec (TopicBase.subscribeQueue liveTopic None) liveQueue)
                  (mkSubscription "TopicSubscription"
                     (mkSubscriptionProps (TopicBase.topicArn liveTopic)
                                          (sqs.queueArn liveQueue) Sqs None))
                  eq_refl) as (_ & _ & _ & Hchild).
  exact Hchild.
Defined.

Lemma topics_with_one_id_share_the_subscription_name_witness :
  TopicBase.subscribeQueue otherTopic None
    (exec (TopicBase.subscribeQueue liveTopic None) liveQueue)
  = (inl (TopicBase.alreadySubscribed
            otherTopic (exec (TopicBase.subscribeQueue liveTopic None) liveQueue)),
     exec (TopicBase.subscribeQueue liveTopic None) liveQueue).
Proof.
  apply (SubscribeQueueFacts.topics_with_one_id_share_the_subscription_name
           liveTopic otherTopic None None liveQueue
           (exec (TopicBase.subscribeQueue liveTopic None) liveQueue)
           (mkSubscription "TopicSubscription"
              (mkSubscriptionProps (TopicBase.topicArn liveTopic)
                                   (sqs.queueArn liveQueue) Sqs None))).
  - reflexivity.
  - reflexivity.
Defined.

Lemma parameters_of_the_task_witness :
  getKey "Subject" (PublishToTopic.parameters (PublishToTopic.bind subjectTask))
  = Some (JsString "Alert")
  /\ ~ In "Subject"
         (keys (PublishToTopic.parameters (PublishToTopic.bind (publishTask None))))
  /\ In "Subject"
        ["TopicArn"; "Message"; "Message.$"; "MessageStructure";
         "MessageStructure.$"; "Subject"; "Subject.$"].
Proof.
  destruct (@PublishKeyFacts.parameters_of_the_task exampleFieldUtils
              PublishFacts.example_rendered_distinct PublishFacts.example_rendered_keys
              PublishFacts.example_rendered_literal subjectTask)
    as (Hkeys & Hsubject & _).
  destruct (@PublishKeyFacts.parameters_of_the_task exampleFieldUtils
              PublishFacts.example_rendered_distinct PublishFacts.example_rendered_keys
              PublishFacts.example_rendered_literal (publishTask None))
    as (_ & _ & Hnone).
  split; [apply Hsubject; reflexivity|].
  split; [apply Hnone; reflexivity|].
  apply Hkeys. simpl. tauto.
Defined.

Lemma _grantsPermission_only_grows_witness :
  @PipelineTest._grantsPermission exampleValues
    ([allowsPassRole] ++ [deniesPassRole]) ["iam:PassRole"] [roleB] None = true
  /\ @PipelineTest._grantsPermission exampleValues
       ([deniesPassRole] ++ [allowsPassRole]) ["iam:PassRole"] [roleB] None = true.
Proof.
  destruct (@PipelineTestFacts._grantsPermission_only_grows exampleValues
              [allowsPassRole] [deniesPassRole] ["iam:PassRole"] [roleB] None)
    as (_ & _ & _ & Hgrows).
  apply Hgrows. reflexivity.
Defined.

End FurtherWitnesses.
